(** * Polarization pipeline of [code/cleaning/01_clean_tse_data.py]

    A shallow embedding of the script that turns TSE vote tallies and the
    Zucco-Power party ideology table into an Esteban-Ray polarization index
    per municipality and year, with the properties its specification states.

    pandas data frames are lists of records (row order is data-frame order),
    numpy arrays are lists, Python exceptions are an explicit result type.
    A float64 is a binary64 number of Rocq's primitive floats, with IEEE 754
    rounding, overflow, infinities and NaN; an int64 is an integer that wraps
    around.  The power [x ** y] is computed by the C library: it is a
    parameter [pow] of the functions that use it, and the facts C99 fixes
    for it are a hypothesis of the theorems that need them. *)

From Stdlib Require Import String.
From Stdlib Require Import Floats ZArith List Bool Arith Lia.
From Stdlib Require Import Sorting.Sorted Sorting.Permutation.
Import ListNotations.

(** ** Python results *)

Inductive pyexn : Type :=
| IndexError
| ValueError
| KeyError
| UnicodeDecodeError
| FileNotFoundError.

Definition pyexn_eqb (a b : pyexn) : bool :=
  match a, b with
  | IndexError, IndexError
  | ValueError, ValueError
  | KeyError, KeyError
  | UnicodeDecodeError, UnicodeDecodeError
  | FileNotFoundError, FileNotFoundError => true
  | _, _ => false
  end.

Inductive pyresult (A : Type) : Type :=
| Returns (a : A)
| Raises (e : pyexn).

Arguments Returns {A} a.
Arguments Raises {A} e.

Definition bind {A B : Type} (m : pyresult A) (k : A -> pyresult B) : pyresult B :=
  match m with
  | Returns a => k a
  | Raises e => Raises e
  end.

Notation "x <- m ;; k" := (bind m (fun x => k))
  (at level 61, m at next level, right associativity).

(** [try: body  except exn: handler]: the handler runs when the body raises
    [exn], any other exception goes through. *)
Definition try_except {A : Type} (body : pyresult A) (exn : pyexn)
  (handler : pyresult A) : pyresult A :=
  match body with
  | Returns a => Returns a
  | Raises e => if pyexn_eqb e exn then handler else Raises e
  end.

(** ** numpy floats and integers *)

Module Float64.

(** A float64 value. *)
Definition float : Set := PrimFloat.float.

Bind Scope float_scope with float.

Definition fadd : float -> float -> float := PrimFloat.add.
Definition fsub : float -> float -> float := PrimFloat.sub.
Definition fmul : float -> float -> float := PrimFloat.mul.
Definition fdiv : float -> float -> float := PrimFloat.div.
Definition fabs : float -> float := PrimFloat.abs.

(** [x > y]: every comparison with NaN is False. *)
Definition fgt (x y : float) : bool := PrimFloat.ltb y x.

Definition isna (x : float) : bool := PrimFloat.is_nan x.

(** The sign bit is clear, or the value is NaN: the value is +0.0, a
    positive number, +inf or NaN. *)
Definition sign_clear (x : float) : bool :=
  match Prim2SF x with
  | S754_zero s | S754_infinity s | S754_finite s _ _ => negb s
  | S754_nan => true
  end.

(** [y] has the sign and the digits of the finite, non-zero [x] and its
    binary exponent raised by [k]: it is [x] times 2^k, without rounding,
    overflow or underflow. *)
Definition scaled_by (k : Z) (x y : float) : bool :=
  match Prim2SF x, Prim2SF y with
  | S754_finite sx mx ex, S754_finite sy my ey =>
      Bool.eqb sy sx && Pos.eqb my mx && Z.eqb ey (ex + k)
  | _, _ => false
  end.

(** What C99 (Annex F) fixes for [pow], whatever the library: the special
    values at +0.0, 1.0 and NaN, and the sign of the result for a base
    whose sign bit is clear and a positive exponent. *)
Record c99_pow (pow : float -> float -> float) : Prop := {
  pow_zero : forall y, PrimFloat.ltb 0 y = true -> pow 0%float y = 0%float;
  pow_one : forall y, pow 1%float y = 1%float;
  pow_nan : forall y, PrimFloat.eqb y 0 = false -> pow nan y = nan;
  pow_sign : forall x y,
    sign_clear x = true -> PrimFloat.ltb 0 y = true -> sign_clear (pow x y) = true
}.

(** *** [ndarray.sum()] of a float64 array *)

(** [r[k] += a[i + k]] for the eight accumulators. *)
Definition add8 (r a : list float) : list float :=
  map (fun ra => fadd (fst ra) (snd ra)) (combine r a).

(** The unrolled loop [for (i = 8; i < n - (n % 8); i += 8)]: [blocks] blocks
    of eight elements are added to the accumulators; the elements left
    over are returned with them. *)
Fixpoint unrolled (blocks : nat) (r a : list float) : list float * list float :=
  match blocks with
  | O => (r, a)
  | S b => unrolled b (add8 r (firstn 8 a)) (skipn 8 a)
  end.

(** [((r[0] + r[1]) + (r[2] + r[3])) + ((r[4] + r[5]) + (r[6] + r[7]))] *)
Definition combine8 (r : list float) : float :=
  match r with
  | [r0; r1; r2; r3; r4; r5; r6; r7] =>
      fadd (fadd (fadd r0 r1) (fadd r2 r3)) (fadd (fadd r4 r5) (fadd r6 r7))
  | _ => nan
  end.

(** numpy's pairwise summation of [n] doubles: a plain loop below 8
    elements, eight accumulators up to 128 elements, two halves above. The
    recursion is on [fuel], which [fsum] sets to the length. *)
Fixpoint pairwise_sum (fuel : nat) (a : list float) : float :=
  let n := length a in
  match fuel with
  | O => fold_left fadd a 0%float
  | S fuel' =>
      if n <? 8 then fold_left fadd a 0%float
      else if n <=? 128 then
        let (r, rest) := unrolled (n / 8 - 1) (firstn 8 a) (skipn 8 a) in
        fold_left fadd rest (combine8 r)
      else
        let n2 := n / 2 - (n / 2) mod 8 in
        fadd (pairwise_sum fuel' (firstn n2 a)) (pairwise_sum fuel' (skipn n2 a))
  end.

(** [arr.sum()]: the reduction starts from the identity 0.0 of the addition
    and adds the pairwise sum of the array; the sum of the empty array is
    0.0.  (The sign of the sum of an array of negative zeros depends on
    the version of numpy; the arrays summed by [esteban_ray_index] hold
    positive shares.) *)
Definition fsum (arr : list float) : float :=
  fadd 0%float (pairwise_sum (length arr) arr).

(** *** int64 *)

(** The int64 with the bits of [z]: arithmetic on int64 columns wraps
    around without an error. *)
Definition wrap64 (z : Z) : Z :=
  ((z + 2 ^ 63) mod 2 ^ 64 - 2 ^ 63)%Z.

(** [col.sum()] of an int64 column. *)
Definition int64_sum (col : list Z) : Z := wrap64 (fold_left Z.add col 0%Z).

(** The conversion of an int64 to float64, rounded to nearest even as
    IEEE 754 has it. *)
Definition of_int64 (z : Z) : float :=
  SF2Prim (binary_normalize prec emax z 0 false).

End Float64.
Import Float64.

(** ** numpy arrays *)

(** [arr[mask]] for a boolean array [mask].  numpy checks the length of a
    boolean index against the array only when the index is not empty: an
    empty mask selects nothing from an array of any length, any other mask
    of another length raises IndexError. *)
Definition boolean_index {A : Type} (arr : list A) (mask : list bool)
  : pyresult (list A) :=
  match mask with
  | [] => Returns []
  | _ :: _ =>
      if Nat.eqb (length arr) (length mask)
      then Returns (map fst (filter snd (combine arr mask)))
      else Raises IndexError
  end.

(** ** [esteban_ray_index] *)

(** The default of the keyword argument [alpha], 1.6 as a float64. *)
Definition alpha_default : float := 0x1.999999999999ap+0%float.

(** The normalization constant [K = 1.0] of the function body. *)
Definition K : float := 1%float.

(** The body of the two nested [for] loops: one update of [polarization]
    for the pair [(i, j)].  Both indices range over [range(n)], so the
    default of [nth] is never read. *)
Definition pair_step (pow : float -> float -> float)
  (vote_shares ideologies : list float) (alpha : float)
  (i : nat) (polarization : float) (j : nat) : float :=
  if Nat.eqb i j then polarization
  else
    let identification := pow (nth i vote_shares nan) (fadd 1%float alpha) in
    let alienation := nth j vote_shares nan in
    let distance := fabs (fsub (nth i ideologies nan) (nth j ideologies nan)) in
    fadd polarization (fmul (fmul identification alienation) distance).

Definition pairwise_polarization (pow : float -> float -> float)
  (vote_shares ideologies : list float) (alpha : float) : float :=
  let n := length vote_shares in
  fold_left
    (fun polarization i =>
       fold_left (pair_step pow vote_shares ideologies alpha i) (seq 0 n) polarization)
    (seq 0 n) 0%float.

(** [pow] is the power function of the C library behind [**]. *)
Definition esteban_ray_index (pow : float -> float -> float)
  (vote_shares ideologies : list float) (alpha : float) : pyresult float :=
  (* Remove parties with zero vote share *)
  let mask := map (fun s => fgt s 0%float) vote_shares in
  vote_shares <- boolean_index vote_shares mask ;;
  ideologies <- boolean_index ideologies mask ;;
  (* Normalize vote shares *)
  let total := fsum vote_shares in
  let vote_shares := map (fun s => fdiv s total) vote_shares in
  (* Calculate pairwise polarization *)
  let polarization := pairwise_polarization pow vote_shares ideologies alpha in
  Returns (fmul K polarization).

(** ** Data frames *)

(** A row of [votacao_candidato_munzona_YYYY.csv]: the tally of one candidate
    in one electoral zone of one municipality.  [QT_VOTOS] is an int64
    column. *)
Record VoteRecord : Type := {
  CD_MUNICIPIO : Z;
  SG_PARTIDO : string;
  QT_VOTOS : Z;
  DS_CARGO : string;
  NR_TURNO : Z
}.

(** A row of the ideology table, columns [party], [ideology], [year]. *)
Record IdeologyRow : Type := {
  party : string;
  ideology : float;
  year : Z
}.

(** A row of [merged]: the vote row with the [ideology] column of the left
    join, NaN where no ideology row matched. *)
Record MergedRow : Type := {
  votes : VoteRecord;
  merged_ideology : float
}.

(** A row of [merged] once the [vote_share] column is assigned. *)
Record ShareRow : Type := {
  merged : MergedRow;
  vote_share : float
}.

(** A row of the output data frame. *)
Record PolarizationResult : Type := {
  cod_municipio : Z;
  ano : Z;
  polarizacao_er : float;
  num_partidos : nat;
  total_votos : Z
}.

Definition ELECTION_YEARS : list Z := [2010; 2014; 2018; 2022]%Z.

Definition PARTY_IDEOLOGY_2018_ADDITIONS : list (string * float) :=
  [ ("PSL"%string, 8.5%float);
    ("NOVO"%string, 9%float);
    ("PATRI"%string, 5%float);
    ("PODE"%string, 4.5%float);
    ("PMN"%string, 5.5%float) ].

(** [pd.concat(frames, ignore_index=True)]: pandas raises ValueError
    ("No objects to concatenate") on an empty list of frames. *)
Definition pd_concat {A : Type} (frames : list (list A)) : pyresult (list A) :=
  match frames with
  | [] => Raises ValueError
  | _ :: _ => Returns (concat frames)
  end.

(** [for x in xs: ... results.append(f(x))] where [f] may raise. *)
Fixpoint for_each {A B : Type} (f : A -> pyresult B) (xs : list A)
  : pyresult (list B) :=
  match xs with
  | [] => Returns []
  | x :: rest =>
      y <- f x ;;
      ys <- for_each f rest ;;
      Returns (y :: ys)
  end.

(** *** [groupby] *)

(** The group keys of [groupby('CD_MUNICIPIO')]: distinct, ascending. *)
Fixpoint insert_key (k : Z) (keys : list Z) : list Z :=
  match keys with
  | [] => [k]
  | h :: t =>
      if (k <? h)%Z then k :: keys
      else if (k =? h)%Z then keys
      else h :: insert_key k t
  end.

Definition group_keys (col : list Z) : list Z := fold_right insert_key [] col.

(** Iterating over [df.groupby(key)]: one [(key, group)] per distinct key in
    ascending key order, the rows of a group in data-frame order. *)
Definition groupby {A : Type} (key : A -> Z) (df : list A) : list (Z * list A) :=
  map (fun k => (k, filter (fun r => (key r =? k)%Z) df))
      (group_keys (map key df)).

(** [df.groupby(key)[col].sum()[k]] for an int64 column: the sum of the
    group, wrapping around. *)
Definition group_sum {A : Type} (key : A -> Z) (col : A -> Z) (df : list A)
  (k : Z) : Z :=
  int64_sum (map col (filter (fun r => (key r =? k)%Z) df)).

(** ** [load_party_ideologies] *)

Definition additions : list IdeologyRow :=
  map (fun entry => {| party := fst entry;
                       ideology := snd entry;
                       year := 2018 |})
      PARTY_IDEOLOGY_2018_ADDITIONS.

(** [ideology_df] is the content of [party_ideology_zucco_power.csv]. *)
Definition load_party_ideologies (ideology_df : list IdeologyRow)
  : list IdeologyRow :=
  ideology_df ++ additions.

(** ** [load_tse_data] *)

(** A vote file [votacao_candidato_munzona_YYYY.csv] with the columns of the
    TSE layout, as the chunk iterator of [pd.read_csv(file_path,
    encoding='latin1', sep=';', chunksize=CHUNK_SIZE)] delivers it: the
    chunks in file order.  A file of no bytes delivers no chunk (the read
    stops with pandas' EmptyDataError, a ValueError, as [pd.concat] does on
    no chunk).  latin1 maps every byte to a character, so decoding a file
    cannot raise UnicodeDecodeError.  Files that the parser rejects or that
    lack a column the code reads (ParserError, KeyError) are outside this
    type. *)
Record TseFile : Type := {
  read_latin1 : list (list VoteRecord)
}.

(** [pd.read_csv(file_path, ...)] opens the file of the year under
    [RAW_DATA_PATH]: [files year] is that file, [None] when there is
    none. *)
Definition open_file (files : Z -> option TseFile) (year : Z) : pyresult TseFile :=
  match files year with
  | Some file => Returns file
  | None => Raises FileNotFoundError
  end.

(** [pd.read_csv(file_path, encoding='iso-8859-1', sep=';')]: iso-8859-1 is
    the codec latin1 under its other name, so the read has the rows of the
    chunks, in one frame. *)
Definition read_iso_8859_1 (file : TseFile) : list VoteRecord :=
  concat (read_latin1 file).

(** The filter "presidential elections, first round". *)
Definition presidente_turno_1 (r : VoteRecord) : bool :=
  String.eqb (DS_CARGO r) "Presidente" && (NR_TURNO r =? 1)%Z.

(** The [for chunk in pd.read_csv(...)] loop of the [try] block: each chunk
    is filtered and appended to [chunks]. *)
Fixpoint read_chunks (reads : list (list VoteRecord))
  (chunks : list (list VoteRecord)) : list (list VoteRecord) :=
  match reads with
  | [] => chunks
  | chunk :: rest =>
      read_chunks rest (chunks ++ [filter presidente_turno_1 chunk])
  end.

(** The body of the [try] block. *)
Definition load_tse_data_try (files : Z -> option TseFile) (year : Z)
  : pyresult (list VoteRecord) :=
  file <- open_file files year ;;
  let chunks := read_chunks (read_latin1 file) [] in
  df <- pd_concat chunks ;;
  Returns df.

Definition load_tse_data (files : Z -> option TseFile) (year : Z)
  : pyresult (list VoteRecord) :=
  try_except (load_tse_data_try files year) UnicodeDecodeError
    (file <- open_file files year ;;
     let df := read_iso_8859_1 file in
     Returns df).

(** ** [calculate_municipality_polarization] *)

(** [votes_df.merge(ideology_year[['party', 'ideology']], left_on='SG_PARTIDO',
    right_on='party', how='left')]: left rows in order, one output row per
    matching right row, one row with NaN when none matches. *)
Definition merge_left (votes_df : list VoteRecord) (ideology_year : list IdeologyRow)
  : list MergedRow :=
  flat_map
    (fun v =>
       match filter (fun r => String.eqb (SG_PARTIDO v) (party r)) ideology_year with
       | [] => [ {| votes := v; merged_ideology := nan |} ]
       | matches =>
           map (fun r => {| votes := v; merged_ideology := ideology r |}) matches
       end)
    votes_df.

(** [merged.dropna(subset=['ideology'])] *)
Definition dropna (df : list MergedRow) : list MergedRow :=
  filter (fun m => negb (isna (merged_ideology m))) df.

Definition municipio (m : MergedRow) : Z := CD_MUNICIPIO (votes m).

(** [merged.groupby('CD_MUNICIPIO')['QT_VOTOS'].sum()] *)
Definition municipality_totals (df : list MergedRow) (k : Z) : Z :=
  group_sum municipio (fun m => QT_VOTOS (votes m)) df k.

(** [merged.groupby('CD_MUNICIPIO')['QT_VOTOS'].transform(lambda x: x / x.sum())]
    assigned to the column [vote_share]: the true division of two int64
    converts both to float64 and divides them, a zero divisor giving NaN
    or an infinity. *)
Definition with_vote_share (df : list MergedRow) : list ShareRow :=
  map (fun m =>
         {| merged := m;
            vote_share := fdiv (of_int64 (QT_VOTOS (votes m)))
                               (of_int64 (municipality_totals df (municipio m))) |})
      df.

(** The steps of the function up to the [for] loop over the groups. *)
Definition merged_shares (votes_df : list VoteRecord)
  (ideology_df : list IdeologyRow) (y : Z) : list ShareRow :=
  let ideology_year := filter (fun r => (year r =? y)%Z) ideology_df in
  with_vote_share (dropna (merge_left votes_df ideology_year)).

Definition calculate_municipality_polarization (pow : float -> float -> float)
  (votes_df : list VoteRecord) (ideology_df : list IdeologyRow) (y : Z)
  : pyresult (list PolarizationResult) :=
  let ideology_year := filter (fun r => (year r =? y)%Z) ideology_df in
  let merged_df := dropna (merge_left votes_df ideology_year) in
  let totals := municipality_totals merged_df in
  let shares := with_vote_share merged_df in
  for_each
    (fun kg : Z * list ShareRow =>
       let (mun, group) := kg in
       let vote_shares := map vote_share group in
       let ideologies := map (fun r => merged_ideology (merged r)) group in
       er_index <- esteban_ray_index pow vote_shares ideologies alpha_default ;;
       Returns {| cod_municipio := mun;
                  ano := y;
                  polarizacao_er := er_index;
                  num_partidos := length group;
                  total_votos := totals mun |})
    (groupby (fun r => municipio (merged r)) shares).

(** ** [main] *)

Definition sort_key (r : PolarizationResult) : Z * Z := (cod_municipio r, ano r).

(** Lexicographic order on [(cod_municipio, ano)]. *)
Definition key_leb (a b : Z * Z) : bool :=
  (fst a <? fst b)%Z || ((fst a =? fst b)%Z && (snd a <=? snd b)%Z).

Fixpoint insert_sorted (r : PolarizationResult) (df : list PolarizationResult)
  : list PolarizationResult :=
  match df with
  | [] => [r]
  | h :: t =>
      if key_leb (sort_key r) (sort_key h) then r :: df
      else h :: insert_sorted r t
  end.

(** [df.sort_values(['cod_municipio', 'ano'])]: rows in ascending
    lexicographic order of the two columns.  A data frame built from no
    record has no columns, and sorting it by a column label raises
    KeyError. *)
Definition sort_values (df : list PolarizationResult)
  : pyresult (list PolarizationResult) :=
  match df with
  | [] => Raises KeyError
  | _ :: _ => Returns (fold_right insert_sorted [] df)
  end.

(** The body of the loop [for year in ELECTION_YEARS]: the frame appended
    to [all_results]. *)
Definition year_result (pow : float -> float -> float)
  (ideology_df : list IdeologyRow) (files : Z -> option TseFile)
  (y : Z) : pyresult (list PolarizationResult) :=
  votes_df <- load_tse_data files y ;;
  calculate_municipality_polarization pow votes_df ideology_df y.

(** [base] is the content of the ideology file, [files] gives the vote file
    of each election year; the result is [final_df] as written to
    [tse_cleaned.csv]. *)
Definition main (pow : float -> float -> float)
  (base : list IdeologyRow) (files : Z -> option TseFile)
  : pyresult (list PolarizationResult) :=
  let ideology_df := load_party_ideologies base in
  all_results <- for_each (year_result pow ideology_df files) ELECTION_YEARS ;;
  final_df <- pd_concat all_results ;;
  sort_values final_df.

(** The rows of the group of municipality [k]. *)
Definition group_of (k : Z) (df : list ShareRow) : list ShareRow :=
  filter (fun r => (municipio (merged r) =? k)%Z) df.

(** What the loop body of [calculate_municipality_polarization] appends for
    the group [kg = (municipio, group)], [totals] being
    [municipality_totals]. *)
Definition emitted_for (pow : float -> float -> float) (totals : Z -> Z) (y : Z)
  (kg : Z * list ShareRow) (r : PolarizationResult) : Prop :=
  cod_municipio r = fst kg
  /\ ano r = y
  /\ num_partidos r = length (snd kg)
  /\ total_votos r = totals (fst kg)
  /\ esteban_ray_index pow (map vote_share (snd kg))
                       (map (fun s => merged_ideology (merged s)) (snd kg))
                       alpha_default
     = Returns (polarizacao_er r).

(** The arrays of the function after the mask: the shares it keeps, the
    positions that go with them, and the shares over their sum. *)
Definition kept_shares (vote_shares : list float) : list float :=
  filter (fun s => fgt s 0) vote_shares.

Definition kept_positions (vote_shares ideologies : list float) : list float :=
  map fst (filter (fun ps => fgt (snd ps) 0) (combine ideologies vote_shares)).

Definition normalized (kept : list float) : list float :=
  map (fun s => fdiv s (fsum kept)) kept.

(** ** The specification's formulas *)

Module Spec.

Definition nonzero (s : float) : bool := negb (PrimFloat.eqb s 0).

(** A party is a pair (vote share, ideology position).  "Parties with zero
    vote share are excluded before this computation". *)
Definition drop_zero_shares (parties : list (float * float)) : list (float * float) :=
  filter (fun sp => nonzero (fst sp)) parties.

(** "re-normalizes the remaining shares": each share over the sum of the
    shares. *)
Definition renormalize (parties : list (float * float)) : list (float * float) :=
  map (fun sp => (fdiv (fst sp) (fsum (map fst parties)), snd sp)) parties.

(** s_i^(1+alpha) * s_j * |p_i - p_j| *)
Definition term (pow : float -> float -> float) (alpha : float)
  (parties : list (float * float)) (ij : nat * nat) : float :=
  let (s_i, p_i) := nth (fst ij) parties (nan, nan) in
  let (s_j, p_j) := nth (snd ij) parties (nan, nan) in
  fmul (fmul (pow s_i (fadd 1%float alpha)) s_j) (fabs (fsub p_i p_j)).

(** "all ordered pairs i <> j", i ascending and j ascending for each i. *)
Definition ordered_pairs (n : nat) : list (nat * nat) :=
  filter (fun ij => negb (Nat.eqb (fst ij) (snd ij)))
         (list_prod (seq 0 n) (seq 0 n)).

(** index = K * Sum_i Sum_j, i <> j [ s_i^(1+alpha) * s_j * |p_i - p_j| ],
    the terms added one after the other to 0.0. *)
Definition index (pow : float -> float -> float) (K alpha : float)
  (parties : list (float * float)) : float :=
  fmul K (fold_left fadd (map (term pow alpha parties)
                              (ordered_pairs (length parties)))
                    0%float).

(** The index of section 4.2, step 5, with alpha = 1.6 and K = 1.0. *)
Definition esteban_ray (pow : float -> float -> float)
  (shares positions : list float) : float :=
  index pow 1%float 0x1.999999999999ap+0%float
        (renormalize (drop_zero_shares (combine shares positions))).

(** [x] is 1 up to [tolerance]: |x - 1| <= tolerance.  With the tolerance
    0.0 it is 1.0 exactly. *)
Definition is_one (tolerance x : float) : Prop :=
  PrimFloat.leb (fabs (fsub x 1)) tolerance = true.

(** "re-normalizes the remaining shares to sum to 1", for shares that are
    non-negative with one positive at least. *)
Definition renormalizes_to_one (tolerance : float) : Prop :=
  forall shares positions : list float,
    length shares = length positions ->
    Forall (fun s => PrimFloat.leb 0 s = true) shares ->
    Exists (fun s => PrimFloat.ltb 0 s = true) shares ->
    is_one tolerance
      (fsum (map fst (renormalize (drop_zero_shares (combine shares positions))))).


(** "esteban_ray_index(c*s, p) = esteban_ray_index(s, p)" for every
    positive constant c. *)
Definition scale_invariant (pow : float -> float -> float) : Prop :=
  forall (c : float) (shares positions : list float),
    PrimFloat.ltb 0 c = true ->
    esteban_ray_index pow (map (fmul c) shares) positions alpha_default
    = esteban_ray_index pow shares positions alpha_default.


(** "Vote shares within any group sum to 1.0 after exclusion of
    unmatched-ideology parties, regardless of original vote share sums in
    the raw data." *)
Definition shares_sum_to_one (tolerance : float) (votes_df : list VoteRecord)
  (ideology_df : list IdeologyRow) (y : Z) : Prop :=
  forall k,
    group_of k (merged_shares votes_df ideology_df y) <> [] ->
    is_one tolerance
      (fsum (map vote_share (group_of k (merged_shares votes_df ideology_df y)))).

(** "the number of distinct qualifying parties in that group" *)
Definition distinct_parties (group : list ShareRow) : nat :=
  length (nodup string_dec (map (fun r => SG_PARTIDO (votes (merged r))) group)).

(** "municipality codes are non-decreasing, and within equal municipality
    codes the year is non-decreasing" *)
Definition key_le (a b : PolarizationResult) : Prop :=
  (cod_municipio a < cod_municipio b)%Z \/
  (cod_municipio a = cod_municipio b /\ (ano a <= ano b)%Z).

End Spec.

(** ** Sample inputs *)

Module Sample.

(** A stand-in for the C library's [pow] where an example needs a function:
    it has the special values C99 fixes and the value the library gives for
    0.5 ** 2.6, 0.16493848884661177; elsewhere it squares the base, which
    is not the library's value.  Only examples use it: the theorems hold
    for every power function, or for those with the properties they
    name. *)
Definition pow (x y : float) : float :=
  if PrimFloat.eqb x 0.5 && PrimFloat.eqb y 0x1.4cccccccccccdp+1
  then 0x1.51cb453b9536cp-3%float
  else fabs (fmul x x).

(** A first-round presidential tally and a second-round governor tally. *)
Definition presidente (mun : Z) (sigla : string) (qt : Z) : VoteRecord :=
  {| CD_MUNICIPIO := mun; SG_PARTIDO := sigla; QT_VOTOS := qt;
     DS_CARGO := "Presidente"; NR_TURNO := 1 |}.

Definition governador (mun : Z) (sigla : string) (qt : Z) : VoteRecord :=
  {| CD_MUNICIPIO := mun; SG_PARTIDO := sigla; QT_VOTOS := qt;
     DS_CARGO := "Governador"; NR_TURNO := 2 |}.

(** A file read in one chunk. *)
Definition one_chunk_file (rows : list VoteRecord) : TseFile :=
  {| read_latin1 := [rows] |}.

(** A file with tallies of another office and round among the
    presidential ones, read in two chunks. *)
Definition mixed_file : TseFile :=
  {| read_latin1 := [ [presidente 1 "PT" 10; governador 1 "PT" 7];
                      [governador 1 "PSL" 3; presidente 1 "PSL" 5] ] |}.

(** A base table that already classifies PSL in 2018. *)
Definition base_with_psl : list IdeologyRow :=
  [ {| party := "PSL"; ideology := 3%float; year := 2018 |} ].

Definition base_pt : list IdeologyRow :=
  [ {| party := "PT"; ideology := 2%float; year := 2018 |} ].

(** One party tallied in two electoral zones of municipality 1. *)
Definition two_zones : list VoteRecord :=
  [ presidente 1 "PT" 10; presidente 1 "PT" 20 ].

(** A municipality whose only classified party received no vote. *)
Definition no_votes : list VoteRecord := [ presidente 1 "PT" 0 ].

Definition two_parties : list VoteRecord :=
  [ presidente 2 "PT" 600; presidente 2 "PSL" 400; presidente 1 "PSL" 5 ].

(** The end-to-end scenario of the specification: votes A 600 and B 400,
    positions A 2.0 and B 8.0; party C has no ideology entry. *)
Definition base_ab : list IdeologyRow :=
  [ {| party := "A"; ideology := 2%float; year := 2018 |};
    {| party := "B"; ideology := 8%float; year := 2018 |} ].

Definition votes_ab : list VoteRecord :=
  [ presidente 1 "A" 600; presidente 1 "B" 400; presidente 1 "C" 250 ].

(** Three classified parties with 1, 4 and 1 votes. *)
Definition base_abc : list IdeologyRow :=
  base_ab ++ [ {| party := "C"; ideology := 5%float; year := 2018 |} ].

Definition votes_141 : list VoteRecord :=
  [ presidente 1 "A" 1; presidente 1 "B" 4; presidente 1 "C" 1 ].

(** A municipality where only PSL is tallied, once. *)
Definition only_psl : list VoteRecord := [ presidente 1 "PSL" 5 ].

End Sample.

(** * Properties *)

(** ** Signs of float64 results *)

Section Signs.

(** Rounding keeps the sign it is given. *)
Lemma round_sign (sx : bool) (mx ex : Z) (lx : location) :
  match binary_round_aux prec emax sx mx ex lx with
  | S754_zero s | S754_infinity s | S754_finite s _ _ => s = sx
  | S754_nan => True
  end.
Proof.
  unfold binary_round_aux.
  destruct (shr_fexp prec emax mx ex lx) as [mrs' e'].
  destruct (shr_fexp prec emax _ e' loc_Exact) as [mrs'' e''].
  destruct (shr_m mrs''); [reflexivity | | exact I].
  destruct (_ <=? _)%Z; reflexivity.
Qed.







(** A value whose sign bit is clear is not below zero. *)
Lemma sign_clear_not_negative (x : float) :
  sign_clear x = true -> PrimFloat.ltb x 0 = false.
Proof.
  unfold sign_clear. rewrite FloatAxioms.ltb_spec. unfold SFltb, SFcompare.
  change (Prim2SF 0) with (S754_zero false).
  destruct (Prim2SF x) as [[|] | [|] | | [|] mx ex];
    try reflexivity; discriminate.
Qed.

(** For a value that is not below zero, not being zero is being positive. *)
Lemma nonzero_positive (s : float) :
  PrimFloat.leb 0 s = true -> Spec.nonzero s = fgt s 0.
Proof.
  unfold Spec.nonzero, fgt. intros H. rewrite FloatAxioms.leb_spec in H.
  rewrite FloatAxioms.eqb_spec, FloatAxioms.ltb_spec. revert H.
  unfold SFleb, SFeqb, SFltb, SFcompare. change (Prim2SF 0) with (S754_zero false).
  destruct (Prim2SF s) as [[|] | [|] | | [|] mx ex];
    try reflexivity; discriminate.
Qed.

(** The order of float64: [x <= y] excludes [y < x], and NaN is below
    nothing. *)
Lemma leb_ltb_false (x y : float) :
  PrimFloat.leb x y = true -> PrimFloat.ltb y x = true -> False.
Proof.
  rewrite FloatAxioms.leb_spec, FloatAxioms.ltb_spec.
  unfold SFleb, SFltb, SFcompare.
  destruct (Prim2SF x) as [[|] | [|] | | [|] mx ex],
           (Prim2SF y) as [[|] | [|] | | [|] my ey];
    try discriminate;
    change (Pos.compare_cont Eq mx my) with (mx ?= my)%positive;
    change (Pos.compare_cont Eq my mx) with (my ?= mx)%positive;
    rewrite (Z.compare_antisym ex ey), (Pos.compare_antisym mx my);
    destruct (ex ?= ey)%Z, (mx ?= my)%positive; cbn [CompOpp]; discriminate.
Qed.

(** A quotient by 0.0 is no number: it is NaN or an infinity. *)
Lemma fdiv_zero_divisor (x : float) :
  PrimFloat.is_nan (fdiv x 0) = true \/ fabs (fdiv x 0) = infinity.
Proof.
  assert (H : Prim2SF (fdiv x 0) = S754_nan
              \/ exists s, Prim2SF (fdiv x 0) = S754_infinity s).
  { unfold fdiv. rewrite FloatAxioms.div_spec. unfold SF64div, SFdiv.
    change (Prim2SF 0) with (S754_zero false).
    destruct (Prim2SF x) as [sx | sx | | sx mx ex]; eauto. }
  destruct H as [H | [s H]].
  - left. unfold PrimFloat.is_nan. rewrite FloatAxioms.eqb_spec, H. reflexivity.
  - right. apply FloatAxioms.Prim2SF_inj. unfold fabs.
    rewrite FloatAxioms.abs_spec, H. reflexivity.
Qed.

Lemma leb_nan_false (y : float) : PrimFloat.leb nan y = true -> False.
Proof.
  rewrite FloatAxioms.leb_spec. unfold SFleb, SFcompare.
  change (Prim2SF nan) with S754_nan. discriminate.
Qed.

End Signs.

(** ** The mask *)

Section Mask.

Lemma boolean_index_same_length {A : Type} (arr : list A) (mask : list bool) :
  length arr = length mask ->
  boolean_index arr mask = Returns (map fst (filter snd (combine arr mask))).
Proof.
  intros H. unfold boolean_index. destruct mask as [| b mask].
  - now rewrite combine_nil.
  - now rewrite H, Nat.eqb_refl.
Qed.

Lemma boolean_index_other_length {A : Type} (arr : list A) (mask : list bool) :
  mask <> [] -> length arr <> length mask ->
  boolean_index arr mask = Raises IndexError.
Proof.
  intros Hne H. unfold boolean_index. destruct mask as [| b mask]; [congruence |].
  now apply Nat.eqb_neq in H as ->.
Qed.

(** Indexing an array with a mask computed from another one. *)
Lemma masked_combine {A B : Type} (f : B -> bool) (arr : list A) (xs : list B) :
  map fst (filter snd (combine arr (map f xs)))
  = map fst (filter (fun ax => f (snd ax)) (combine arr xs)).
Proof.
  revert xs. induction arr as [| a arr IH]; intros [| x xs]; simpl; auto.
  destruct (f x); simpl; now rewrite IH.
Qed.

Lemma masked_self {A : Type} (f : A -> bool) (xs : list A) :
  map fst (filter snd (combine xs (map f xs))) = filter f xs.
Proof.
  induction xs as [| x xs IH]; simpl; auto.
  destruct (f x); simpl; now rewrite IH.
Qed.

Lemma filter_none {A : Type} (f : A -> bool) (xs : list A) :
  Forall (fun x => f x = false) xs -> filter f xs = [].
Proof.
  induction 1 as [| x xs Hx _ IH]; [reflexivity |].
  cbn [filter]. now rewrite Hx.
Qed.

End Mask.

(** ** What [esteban_ray_index] computes and raises *)

Section EstebanRay.

Variable pow : float -> float -> float.

Lemma esteban_ray_index_same_length (vote_shares ideologies : list float)
  (alpha : float) :
  length vote_shares = length ideologies ->
  esteban_ray_index pow vote_shares ideologies alpha
  = Returns (fmul K (pairwise_polarization pow
                       (normalized (kept_shares vote_shares))
                       (kept_positions vote_shares ideologies) alpha)).
Proof.
  intros Hlen. unfold esteban_ray_index.
  rewrite !boolean_index_same_length by (rewrite length_map; congruence).
  simpl. rewrite masked_self, masked_combine. reflexivity.
Qed.

Lemma esteban_ray_index_empty (ideologies : list float) (alpha : float) :
  esteban_ray_index pow [] ideologies alpha = Returns 0%float.
Proof. reflexivity. Qed.

Lemma esteban_ray_index_other_length (vote_shares ideologies : list float)
  (alpha : float) :
  vote_shares <> [] ->
  length vote_shares <> length ideologies ->
  esteban_ray_index pow vote_shares ideologies alpha = Raises IndexError.
Proof.
  intros Hne Hlen. unfold esteban_ray_index.
  rewrite boolean_index_same_length by now rewrite length_map.
  simpl. rewrite boolean_index_other_length; [reflexivity | |].
  - destruct vote_shares; [congruence | discriminate].
  - rewrite length_map. congruence.
Qed.

Lemma pairwise_polarization_nil (ideologies : list float) (alpha : float) :
  pairwise_polarization pow [] ideologies alpha = 0%float.
Proof. reflexivity. Qed.

Lemma K_times_zero : fmul K 0 = 0%float.
Proof. reflexivity. Qed.

Lemma esteban_ray_index_all_masked (vote_shares ideologies : list float)
  (alpha : float) :
  length vote_shares = length ideologies ->
  Forall (fun s => fgt s 0 = false) vote_shares ->
  esteban_ray_index pow vote_shares ideologies alpha = Returns 0%float.
Proof.
  intros Hlen Hall. rewrite esteban_ray_index_same_length by exact Hlen.
  unfold kept_shares. rewrite (filter_none _ _ Hall). reflexivity.
Qed.

Lemma esteban_ray_index_one_entry (s p : float) (alpha : float) :
  esteban_ray_index pow [s] [p] alpha = Returns 0%float.
Proof.
  rewrite esteban_ray_index_same_length by reflexivity.
  unfold kept_shares, kept_positions. cbn [filter combine snd].
  destruct (fgt s 0); reflexivity.
Qed.

End EstebanRay.

(** C9. When no share is positive (zero, negative or NaN entries, or the
    empty array) the mask leaves nothing, the sum of the remaining shares
    is 0.0, nothing is divided by it and the function returns 0.0. *)
Theorem esteban_ray_index_no_positive_share (pow : float -> float -> float)
  (vote_shares ideologies : list float) (alpha : float) :
  length vote_shares = length ideologies ->
  Forall (fun s => fgt s 0 = false) vote_shares ->
  fsum (kept_shares vote_shares) = 0%float
  /\ esteban_ray_index pow vote_shares ideologies alpha = Returns 0%float.
Proof.
  intros Hlen Hall.
  assert (Hkept : kept_shares vote_shares = [])
    by (unfold kept_shares; now apply filter_none).
  split.
  - now rewrite Hkept.
  - rewrite esteban_ray_index_same_length by exact Hlen.
    rewrite Hkept. cbn [normalized map].
    now rewrite pairwise_polarization_nil, K_times_zero.
Qed.

Lemma esteban_ray_index_no_positive_share_witness :
  fsum (kept_shares [0; -1; nan]%float) = 0%float
  /\ esteban_ray_index Sample.pow [0; -1; nan]%float [3; nan; 5]%float alpha_default
     = Returns 0%float.
Proof.
  apply (esteban_ray_index_no_positive_share Sample.pow [0; -1; nan]%float [3; nan; 5]%float
           alpha_default).
  - reflexivity.
  - repeat constructor.
Defined.

(** ** The loops are the double sum *)

Section Loops.

Variable pow : float -> float -> float.
Variable alpha : float.
Variable parties : list (float * float).

Lemma pair_step_term (i j : nat) (polarization : float) :
  pair_step pow (map fst parties) (map snd parties) alpha i polarization j
  = if Nat.eqb i j then polarization
    else fadd polarization (Spec.term pow alpha parties (i, j)).
Proof.
  unfold pair_step, Spec.term. cbn [fst snd].
  rewrite !(map_nth fst parties (nan, nan)), !(map_nth snd parties (nan, nan)).
  destruct (nth i parties (nan, nan)) as [s_i p_i].
  destruct (nth j parties (nan, nan)) as [s_j p_j].
  reflexivity.
Qed.

Lemma inner_loop_terms (i : nat) (js : list nat) (polarization : float) :
  fold_left (pair_step pow (map fst parties) (map snd parties) alpha i) js polarization
  = fold_left fadd
      (map (Spec.term pow alpha parties)
           (filter (fun ij => negb (Nat.eqb (fst ij) (snd ij)))
                   (map (fun j => (i, j)) js)))
      polarization.
Proof.
  revert polarization. induction js as [| j js IH]; intros polarization.
  - reflexivity.
  - cbn [fold_left map filter fst snd]. rewrite pair_step_term, IH.
    destruct (Nat.eqb i j); reflexivity.
Qed.

Lemma outer_loop_terms (idxs js : list nat) (polarization : float) :
  fold_left
    (fun polarization i =>
       fold_left (pair_step pow (map fst parties) (map snd parties) alpha i)
                 js polarization)
    idxs polarization
  = fold_left fadd
      (map (Spec.term pow alpha parties)
           (filter (fun ij => negb (Nat.eqb (fst ij) (snd ij)))
                   (list_prod idxs js)))
      polarization.
Proof.
  revert polarization. induction idxs as [| i idxs IH]; intros polarization.
  - reflexivity.
  - cbn [fold_left list_prod].
    rewrite filter_app, map_app, fold_left_app, <- inner_loop_terms.
    apply IH.
Qed.

Lemma pairwise_polarization_terms :
  pairwise_polarization pow (map fst parties) (map snd parties) alpha
  = fold_left fadd
      (map (Spec.term pow alpha parties) (Spec.ordered_pairs (length parties)))
      0%float.
Proof.
  unfold pairwise_polarization, Spec.ordered_pairs.
  rewrite length_map. apply outer_loop_terms.
Qed.

End Loops.

(** ** The arrays after the mask are the specification's parties *)

Section Parties.

Lemma drop_zero_shares_mask (shares positions : list float) :
  Forall (fun s => PrimFloat.leb 0 s = true) shares ->
  Spec.drop_zero_shares (combine shares positions)
  = filter (fun sp => fgt (fst sp) 0) (combine shares positions).
Proof.
  intros Hall. unfold Spec.drop_zero_shares. apply filter_ext_in.
  intros [s p] Hin. cbn [fst]. apply nonzero_positive.
  apply in_combine_l in Hin. rewrite Forall_forall in Hall. now apply Hall.
Qed.

Lemma kept_shares_combine (shares positions : list float) :
  length shares = length positions ->
  map fst (filter (fun sp => fgt (fst sp) 0) (combine shares positions))
  = kept_shares shares.
Proof.
  unfold kept_shares. revert positions.
  induction shares as [| s shares IH]; intros [| p positions] Hlen;
    try discriminate; [reflexivity |].
  cbn [combine filter fst]. injection Hlen as Hlen.
  destruct (fgt s 0); cbn [map fst]; now rewrite IH.
Qed.

Lemma kept_positions_combine (shares positions : list float) :
  map snd (filter (fun sp => fgt (fst sp) 0) (combine shares positions))
  = kept_positions shares positions.
Proof.
  unfold kept_positions. revert positions.
  induction shares as [| s shares IH]; intros [| p positions];
    try reflexivity.
  cbn [combine filter fst snd].
  destruct (fgt s 0); cbn [map fst snd]; now rewrite IH.
Qed.

Lemma renormalize_shares (parties : list (float * float)) :
  map fst (Spec.renormalize parties) = normalized (map fst parties).
Proof.
  unfold Spec.renormalize, normalized. rewrite !map_map. reflexivity.
Qed.

Lemma renormalize_positions (parties : list (float * float)) :
  map snd (Spec.renormalize parties) = map snd parties.
Proof.
  unfold Spec.renormalize. rewrite map_map. reflexivity.
Qed.

End Parties.

(** ** The index formula *)

(** C1, as stated, fails on "re-normalizes the remaining shares to sum to
    1": two shares of 2^1023 have the float64 sum +inf and become 0.0 each,
    and their sum 0.0 is not 1 up to any tolerance below 1. *)
Lemma renormalized_sum_not_one :
  ~ exists tolerance,
      PrimFloat.ltb tolerance 1 = true /\ Spec.renormalizes_to_one tolerance.
Proof.
  intros (tolerance & Hbelow & H).
  specialize (H [0x1p1023; 0x1p1023]%float [2; 8]%float eq_refl).
  apply (leb_ltb_false 1 tolerance); [| exact Hbelow].
  apply H; [repeat constructor |].
  apply Exists_cons_hd. reflexivity.
Qed.

(** Nor is the sum 1.0 exactly at ordinary shares: 1, 4, 1 become 1/6, 4/6,
    1/6, whose float64 sum is 0.9999999999999999. *)
Example renormalized_sum_rounded :
  fsum (map fst (Spec.renormalize
                   (Spec.drop_zero_shares (combine [1; 4; 1] [2; 5; 8]))))%float
  = 0x1.fffffffffffffp-1%float
  /\ ~ Spec.renormalizes_to_one 0.
Proof.
  split; [reflexivity |]. intros H.
  specialize (H [1; 4; 1]%float [2; 5; 8]%float eq_refl).
  assert (Hone : false = true); [| discriminate].
  apply H; [repeat constructor |].
  apply Exists_cons_hd. reflexivity.
Qed.

(** C1. For shares that are not below zero, [esteban_ray_index] returns the
    index of the specification: the entries with zero share dropped, each
    remaining share divided by the float64 sum of the remaining shares, and
    K times the terms of the ordered pairs i <> j added up in float64, with
    alpha = 1.6 and K = 1.0. *)
Theorem esteban_ray_index_formula (pow : float -> float -> float)
  (shares positions : list float) :
  length shares = length positions ->
  Forall (fun s => PrimFloat.leb 0 s = true) shares ->
  esteban_ray_index pow shares positions alpha_default
  = Returns (Spec.esteban_ray pow shares positions).
Proof.
  intros Hlen Hall.
  rewrite esteban_ray_index_same_length by exact Hlen.
  unfold Spec.esteban_ray, Spec.index. f_equal.
  change (fmul K) with (fmul 1). f_equal.
  rewrite <- pairwise_polarization_terms.
  rewrite renormalize_shares, renormalize_positions.
  rewrite (drop_zero_shares_mask _ _ Hall).
  rewrite (kept_shares_combine _ _ Hlen), kept_positions_combine.
  reflexivity.
Qed.

Lemma esteban_ray_index_formula_witness :
  esteban_ray_index Sample.pow [0.5; 0; 0.5]%float [2; 5; 8]%float alpha_default
  = Returns (Spec.esteban_ray Sample.pow [0.5; 0; 0.5]%float [2; 5; 8]%float).
Proof.
  apply (esteban_ray_index_formula Sample.pow [0.5; 0; 0.5]%float [2; 5; 8]%float).
  - reflexivity.
  - repeat constructor.
Defined.

(** The entry with zero share is dropped with its position: a NaN position
    there does not reach the result. *)
Example esteban_ray_index_drops_zero_share (pow : float -> float -> float) :
  esteban_ray_index pow [0; 1]%float [nan; 2]%float alpha_default
  = Returns 0%float.
Proof. reflexivity. Qed.

(** The shares 0.6 and 0.4 (as float64, 0x1.3333333333333p-1 and
    0x1.999999999999ap-2) at the positions 2.0 and 8.0 give
    K * ((0 + 0.6^2.6 * 0.4 * 6) + 0.4^2.6 * 0.6 * 6), the exponent being
    the float64 sum 1 + 1.6. *)
Example esteban_ray_index_600_400 (pow : float -> float -> float) :
  esteban_ray_index pow [0x1.3333333333333p-1; 0x1.999999999999ap-2]%float
                    [2; 8]%float alpha_default
  = Returns
      (fmul 1
         (fadd (fadd 0 (fmul (fmul (pow 0x1.3333333333333p-1 0x1.4cccccccccccdp+1)
                                   0x1.999999999999ap-2) 6))
               (fmul (fmul (pow 0x1.999999999999ap-2 0x1.4cccccccccccdp+1)
                           0x1.3333333333333p-1) 6)))%float.
Proof. reflexivity. Qed.

(** ** The sign of the index *)

Section Sign.

Variable pow : float -> float -> float.
Hypothesis pow_c99 : c99_pow pow.

Local Abbreviation all_clear l := (Forall (fun x => sign_clear x = true) l).












Variable alpha : float.
Hypothesis exponent_positive : PrimFloat.ltb 0 (fadd 1 alpha) = true.




End Sign.



(** The loops for two parties. *)
Lemma pairwise_polarization_two (pow : float -> float -> float)
  (s1 s2 p1 p2 alpha : float) :
  pairwise_polarization pow [s1; s2] [p1; p2] alpha
  = fadd (fadd 0 (fmul (fmul (pow s1 (fadd 1 alpha)) s2) (fabs (fsub p1 p2))))
         (fmul (fmul (pow s2 (fadd 1 alpha)) s1) (fabs (fsub p2 p1))).
Proof. reflexivity. Qed.

(** Two shares of 2^1023: their float64 sum is +inf, each is re-normalized
    to 0.0, and the index is 0.0 where the formula over the reals gives
    2 * 0.5^2.6 * 0.5 * 6. *)
Example esteban_ray_index_overflow (pow : float -> float -> float) :
  c99_pow pow ->
  esteban_ray_index pow [0x1p1023; 0x1p1023]%float [2; 8]%float alpha_default
  = Returns 0%float.
Proof.
  intros Hpow. rewrite esteban_ray_index_same_length by reflexivity.
  change (normalized (kept_shares [0x1p1023; 0x1p1023]%float))
    with [0; 0]%float.
  change (kept_positions [0x1p1023; 0x1p1023]%float [2; 8]%float)
    with [2; 8]%float.
  rewrite pairwise_polarization_two.
  rewrite (pow_zero pow Hpow) by reflexivity. reflexivity.
Qed.




(** ** Scaling the shares *)

Section Scaling.

Variable c : float.
Hypothesis c_positive : PrimFloat.ltb 0 c = true.

(** A product with [c] is positive only for a positive share. *)
Lemma fgt_scaled (s : float) : fgt (fmul c s) 0 = true -> fgt s 0 = true.
Proof.
  revert c_positive. unfold fgt, fmul.
  rewrite !FloatAxioms.ltb_spec, FloatAxioms.mul_spec.
  unfold SF64mul, SFmul, SFltb, SFcompare. change (Prim2SF 0) with (S754_zero false).
  destruct (Prim2SF c) as [[|] | [|] | | [|] mc ec]; try discriminate; intros _;
    destruct (Prim2SF s) as [[|] | [|] | | [|] ms es]; cbn [xorb];
    try discriminate; try reflexivity.
  pose proof (round_sign true (Z.pos (mc * ms)) (ec + es) loc_Exact) as H.
  destruct (binary_round_aux _ _ _ _ _ _); try discriminate; subst; discriminate.
Qed.

Lemma mask_scaled (shares : list float) :
  Forall (fun s => fgt s 0 = true -> fgt (fmul c s) 0 = true) shares ->
  map (fun s => fgt s 0) (map (fmul c) shares) = map (fun s => fgt s 0) shares.
Proof.
  induction 1 as [| s shares Hs _ IH]; [reflexivity |].
  cbn [map]. rewrite IH. f_equal.
  pose proof (fgt_scaled s) as Hback.
  destruct (fgt s 0), (fgt (fmul c s) 0); auto.
  symmetry. now apply Hback.
Qed.

Lemma masked_map {A B : Type} (f : A -> B) (g : A -> bool) (xs : list A) :
  map fst (filter snd (combine (map f xs) (map g xs))) = map f (filter g xs).
Proof.
  induction xs as [| x xs IH]; [reflexivity |].
  cbn [map combine filter snd]. destruct (g x); cbn [map fst]; now rewrite IH.
Qed.

End Scaling.

(** C10, as stated, fails: two shares of 2^1023 are re-normalized to 0.0
    each and give the index 0.0, while twice these shares are +inf each,
    are re-normalized to inf / inf = NaN and give NaN.  This holds with
    every power function that has pow(+0, y) = +0 and pow(NaN, y) = NaN. *)
Lemma esteban_ray_index_scaled_differs :
  ~ exists pow, c99_pow pow /\ Spec.scale_invariant pow.
Proof.
  intros (pow & Hpow & H).
  specialize (H 2%float [0x1p1023; 0x1p1023]%float [0; 1]%float eq_refl).
  rewrite !esteban_ray_index_same_length in H by reflexivity.
  change (normalized (kept_shares (map (fmul 2) [0x1p1023; 0x1p1023]%float)))
    with [nan; nan] in H.
  change (normalized (kept_shares [0x1p1023; 0x1p1023]%float))
    with [0; 0]%float in H.
  change (kept_positions (map (fmul 2) [0x1p1023; 0x1p1023]%float) [0; 1]%float)
    with [0; 1]%float in H.
  change (kept_positions [0x1p1023; 0x1p1023]%float [0; 1]%float)
    with [0; 1]%float in H.
  rewrite !pairwise_polarization_two in H.
  rewrite (pow_zero pow Hpow), (pow_nan pow Hpow) in H by reflexivity.
  apply (f_equal (fun r => match r with
                           | Returns x => PrimFloat.is_nan x
                           | Raises _ => false
                           end)) in H.
  vm_compute in H. discriminate.
Qed.

(** The result depends on the shares through the mask and the
    re-normalized remaining shares only. *)
Lemma esteban_ray_index_same_normalized (pow : float -> float -> float)
  (c : float) (shares positions : list float) (alpha : float) :
  PrimFloat.ltb 0 c = true ->
  Forall (fun s => fgt s 0 = true -> fgt (fmul c s) 0 = true) shares ->
  normalized (map (fmul c) (kept_shares shares)) = normalized (kept_shares shares) ->
  esteban_ray_index pow (map (fmul c) shares) positions alpha
  = esteban_ray_index pow shares positions alpha.
Proof.
  intros Hc Hmask Hnorm. unfold esteban_ray_index.
  rewrite (mask_scaled c Hc shares Hmask).
  rewrite (boolean_index_same_length (map (fmul c) shares)),
    (boolean_index_same_length shares) by now rewrite !length_map.
  rewrite masked_map, masked_self. cbn [bind].
  destruct (boolean_index positions _) as [ideologies | e]; [| reflexivity].
  cbn [bind]. fold (kept_shares shares).
  change (map (fun s => fdiv s (fsum ?l)) ?l) with (normalized l).
  now rewrite Hnorm.
Qed.

Section ExactScaling.

Variable k : Z.

Lemma scaled_by_inv (x y : float) :
  scaled_by k x y = true ->
  exists sx mx ex,
    Prim2SF x = S754_finite sx mx ex /\ Prim2SF y = S754_finite sx mx (ex + k).
Proof.
  unfold scaled_by.
  destruct (Prim2SF x) as [| | | sx mx ex]; try discriminate.
  destruct (Prim2SF y) as [| | | sy my ey]; try discriminate.
  rewrite !andb_true_iff, Bool.eqb_true_iff, Pos.eqb_eq, Z.eqb_eq.
  intros [[-> ->] ->]. now exists sx, mx, ex.
Qed.

(** A quotient does not change when both operands are scaled by 2^k. *)
Lemma fdiv_scaled (x x' t t' : float) :
  scaled_by k x x' = true -> scaled_by k t t' = true -> fdiv x' t' = fdiv x t.
Proof.
  intros Hx Ht.
  apply scaled_by_inv in Hx as (sx & mx & ex & Hx & Hx').
  apply scaled_by_inv in Ht as (st & mt & et & Ht & Ht').
  apply FloatAxioms.Prim2SF_inj. unfold fdiv.
  rewrite !FloatAxioms.div_spec, Hx, Hx', Ht, Ht'.
  unfold SF64div, SFdiv, SFdiv_core_binary.
  replace (ex + k - (et + k))%Z with (ex - et)%Z by lia.
  replace (Zdigits2 (Z.pos mx) + (ex + k) - (Zdigits2 (Z.pos mt) + (et + k)))%Z
    with (Zdigits2 (Z.pos mx) + ex - (Zdigits2 (Z.pos mt) + et))%Z by lia.
  reflexivity.
Qed.

(** A positive share scaled by 2^k is positive. *)
Lemma fgt_scaled_by (x y : float) :
  scaled_by k x y = true -> fgt x 0 = true -> fgt y 0 = true.
Proof.
  intros Hxy. apply scaled_by_inv in Hxy as (sx & mx & ex & Hx & Hy).
  unfold fgt. rewrite !FloatAxioms.ltb_spec, Hx, Hy.
  unfold SFltb, SFcompare. change (Prim2SF 0) with (S754_zero false).
  now destruct sx.
Qed.

End ExactScaling.

(** C10. Multiplying the shares by a positive constant [c] leaves the
    result unchanged when the multiplication is exact: [c] times a positive
    share is the share with its exponent raised by [k], and the float64 sum
    of these products is the sum of the positive shares with its exponent
    raised by [k], as for [c] = 2^k when nothing overflows or underflows. *)
Theorem esteban_ray_index_scale_invariant (pow : float -> float -> float)
  (c : float) (k : Z) (shares positions : list float) (alpha : float) :
  PrimFloat.ltb 0 c = true ->
  Forall (fun s => scaled_by k s (fmul c s) = true) (kept_shares shares) ->
  kept_shares shares = []
  \/ scaled_by k (fsum (kept_shares shares))
                (fsum (map (fmul c) (kept_shares shares))) = true ->
  esteban_ray_index pow (map (fmul c) shares) positions alpha
  = esteban_ray_index pow shares positions alpha.
Proof.
  intros Hc Hexact Hsum.
  apply esteban_ray_index_same_normalized; [exact Hc | |].
  - apply Forall_forall. intros s Hin Hs.
    apply (fgt_scaled_by k s); [| exact Hs].
    rewrite Forall_forall in Hexact. apply Hexact.
    unfold kept_shares. apply filter_In. now split.
  - destruct Hsum as [-> | Hsum]; [reflexivity |].
    unfold normalized. rewrite map_map. apply map_ext_in. intros s Hs.
    rewrite Forall_forall in Hexact.
    now apply (fdiv_scaled k); [apply Hexact |].
Qed.

Lemma esteban_ray_index_scale_invariant_witness :
  esteban_ray_index Sample.pow (map (fmul 2) [0.25; 0; 0.5; 0.25]%float)
                    [2; 3; 5; 8]%float alpha_default
  = esteban_ray_index Sample.pow [0.25; 0; 0.5; 0.25]%float
                      [2; 3; 5; 8]%float alpha_default.
Proof.
  apply (esteban_ray_index_scale_invariant Sample.pow 2%float 1%Z
           [0.25; 0; 0.5; 0.25]%float [2; 3; 5; 8]%float alpha_default).
  - reflexivity.
  - repeat constructor.
  - right. reflexivity.
Defined.

(** * Further properties of [esteban_ray_index] *)

(** ** Entries the mask drops *)

Lemma combine_app_same {A B : Type} (l1 l2 : list A) (m1 m2 : list B) :
  length l1 = length m1 ->
  combine (l1 ++ l2) (m1 ++ m2) = combine l1 m1 ++ combine l2 m2.
Proof.
  revert m1. induction l1 as [| a l1 IH]; intros [| b m1] H;
    try discriminate; [reflexivity |].
  cbn [app combine]. f_equal. apply IH. now injection H.
Qed.

(** X2. An entry whose share is not positive (zero, negative or NaN) can be
    removed from both arrays, wherever it stands in them, without changing
    what the function returns. *)
Theorem esteban_ray_index_drop_entry (pow : float -> float -> float)
  (vs1 vs2 ids1 ids2 : list float) (s p : float) (alpha : float) :
  length vs1 = length ids1 ->
  length vs2 = length ids2 ->
  fgt s 0 = false ->
  esteban_ray_index pow (vs1 ++ s :: vs2) (ids1 ++ p :: ids2) alpha
  = esteban_ray_index pow (vs1 ++ vs2) (ids1 ++ ids2) alpha.
Proof.
  intros H1 H2 Hs.
  rewrite !esteban_ray_index_same_length
    by (rewrite !length_app; cbn [length]; lia).
  unfold kept_shares, kept_positions.
  rewrite !filter_app. cbn [filter]. rewrite Hs.
  rewrite !combine_app_same by (symmetry; exact H1).
  rewrite !filter_app. cbn [combine filter snd]. rewrite Hs. reflexivity.
Qed.

Lemma esteban_ray_index_drop_entry_witness :
  esteban_ray_index Sample.pow ([0.5] ++ nan :: [0.5])%float
                    ([2] ++ 5 :: [8])%float alpha_default
  = esteban_ray_index Sample.pow ([0.5] ++ [0.5])%float
                      ([2] ++ [8])%float alpha_default.
Proof.
  apply (esteban_ray_index_drop_entry Sample.pow
           [0.5]%float [0.5]%float [2]%float [8]%float nan 5%float).
  - reflexivity.
  - reflexivity.
  - reflexivity.
Defined.

(** X3. The function returns when the two arrays have one length or
    [vote_shares] is empty, and raises otherwise; what it raises is the
    IndexError of indexing [ideologies] with the mask. *)
Theorem esteban_ray_index_raises (pow : float -> float -> float)
  (vote_shares ideologies : list float) (alpha : float) :
  match esteban_ray_index pow vote_shares ideologies alpha with
  | Returns _ => length vote_shares = length ideologies \/ vote_shares = []
  | Raises e =>
      e = IndexError /\ vote_shares <> []
      /\ length vote_shares <> length ideologies
  end.
Proof.
  destruct (Nat.eq_dec (length vote_shares) (length ideologies)) as [H | H].
  - rewrite esteban_ray_index_same_length by exact H. now left.
  - destruct vote_shares as [| s vote_shares].
    + rewrite esteban_ray_index_empty. now right.
    + rewrite esteban_ray_index_other_length by (exact H || discriminate).
      repeat split; [discriminate | exact H].
Qed.

(** A share array shorter than the position array raises unless it is
    empty. *)
Example esteban_ray_index_lengths (pow : float -> float -> float) :
  esteban_ray_index pow [0]%float [5; 7]%float alpha_default = Raises IndexError
  /\ esteban_ray_index pow [] [7]%float alpha_default = Returns 0%float.
Proof. split; reflexivity. Qed.

(** X25. On arrays of one entry the function returns exactly 0.0, whatever
    the share and the position are (zero, negative, infinite or NaN
    included) and whatever the power function computes. *)
Theorem esteban_ray_index_single_entry (pow : float -> float -> float)
  (s p alpha : float) :
  esteban_ray_index pow [s] [p] alpha = Returns 0%float.
Proof. apply esteban_ray_index_one_entry. Qed.

(** * The pipeline *)

(** ** Loading the vote files *)

Section Loading.

Lemma read_chunks_filtered (reads chunks : list (list VoteRecord)) :
  read_chunks reads chunks = chunks ++ map (filter presidente_turno_1) reads.
Proof.
  revert chunks. induction reads as [| chunk rest IH]; intros chunks;
    cbn [read_chunks map].
  - now rewrite app_nil_r.
  - rewrite IH, <- app_assoc. reflexivity.
Qed.

Variable files : Z -> option TseFile.
Variable year : Z.

(** What the [try] block does with each file. *)
Lemma load_tse_data_try_outcome :
  load_tse_data_try files year
  = match files year with
    | None => Raises FileNotFoundError
    | Some file =>
        match read_latin1 file with
        | [] => Raises ValueError
        | _ :: _ => Returns (filter presidente_turno_1 (concat (read_latin1 file)))
        end
    end.
Proof.
  unfold load_tse_data_try, open_file.
  destruct (files year) as [file |]; [| reflexivity].
  cbn [bind]. rewrite read_chunks_filtered. cbn [app].
  destruct (read_latin1 file) as [| chunk rest]; [reflexivity |].
  cbn [map pd_concat bind]. f_equal.
  change (filter presidente_turno_1 chunk :: map (filter presidente_turno_1) rest)
    with (map (filter presidente_turno_1) (chunk :: rest)).
  apply concat_filter_map.
Qed.

(** The [try] block raises no UnicodeDecodeError, so the [except] branch
    does not run: the function is its [try] block. *)
Lemma load_tse_data_no_fallback :
  load_tse_data files year = load_tse_data_try files year.
Proof.
  unfold load_tse_data. rewrite load_tse_data_try_outcome.
  destruct (files year) as [file |]; [| reflexivity].
  destruct (read_latin1 file); reflexivity.
Qed.

Lemma presidente_turno_1_true (r : VoteRecord) :
  presidente_turno_1 r = true
  <-> DS_CARGO r = "Presidente"%string /\ NR_TURNO r = 1%Z.
Proof.
  unfold presidente_turno_1.
  now rewrite andb_true_iff, String.eqb_eq, Z.eqb_eq.
Qed.

End Loading.

(** C2. Whatever the file, the frame [load_tse_data] returns is made of the
    rows of the file with DS_CARGO == 'Presidente' and NR_TURNO == 1 and of
    no other row: it is the frame of the [try] block, which filters every
    chunk; the [except UnicodeDecodeError] branch, which does not filter,
    never runs, since the latin1 read cannot raise that error. *)
Theorem load_tse_data_presidente_turno_1 (files : Z -> option TseFile)
  (year : Z) (df : list VoteRecord) :
  load_tse_data files year = Returns df ->
  load_tse_data_try files year = Returns df
  /\ (exists file,
        files year = Some file
        /\ df = filter presidente_turno_1 (concat (read_latin1 file)))
  /\ Forall (fun r => DS_CARGO r = "Presidente"%string /\ NR_TURNO r = 1%Z) df.
Proof.
  rewrite load_tse_data_no_fallback. intros Hload. split; [exact Hload |].
  rewrite load_tse_data_try_outcome in Hload.
  destruct (files year) as [file |]; [| discriminate].
  destruct (read_latin1 file) as [| chunk rest] eqn:Hread; [discriminate |].
  injection Hload as <-. split.
  - exists file. now rewrite Hread.
  - apply Forall_forall. intros r Hr. apply filter_In in Hr as [_ Hr].
    now apply presidente_turno_1_true.
Qed.

Lemma load_tse_data_presidente_turno_1_witness :
  load_tse_data_try (fun _ => Some Sample.mixed_file) 2018
  = Returns [Sample.presidente 1 "PT" 10; Sample.presidente 1 "PSL" 5]
  /\ (exists file,
        Some Sample.mixed_file = Some file
        /\ [Sample.presidente 1 "PT" 10; Sample.presidente 1 "PSL" 5]
           = filter presidente_turno_1 (concat (read_latin1 file)))
  /\ Forall (fun r => DS_CARGO r = "Presidente"%string /\ NR_TURNO r = 1%Z)
            [Sample.presidente 1 "PT" 10; Sample.presidente 1 "PSL" 5].
Proof.
  apply (load_tse_data_presidente_turno_1 (fun _ => Some Sample.mixed_file) 2018
           [Sample.presidente 1 "PT" 10; Sample.presidente 1 "PSL" 5]).
  reflexivity.
Defined.

(** X9. For a file that is there, the function returns the rows of the
    file that are first-round presidential tallies, in file order, whatever
    the chunking; a read that delivers no chunk at all raises ValueError. *)
Theorem load_tse_data_all_read (files : Z -> option TseFile) (year : Z)
  (file : TseFile) :
  files year = Some file ->
  load_tse_data files year
  = match read_latin1 file with
    | [] => Raises ValueError
    | _ :: _ => Returns (filter presidente_turno_1 (concat (read_latin1 file)))
    end.
Proof.
  intros Hfile.
  now rewrite load_tse_data_no_fallback, load_tse_data_try_outcome, Hfile.
Qed.

Lemma load_tse_data_all_read_witness :
  load_tse_data
    (fun _ => Some {| read_latin1 := [Sample.two_zones; Sample.no_votes] |}) 2018
  = Returns (filter presidente_turno_1 (concat [Sample.two_zones; Sample.no_votes])).
Proof.
  apply (load_tse_data_all_read
           (fun _ => Some {| read_latin1 := [Sample.two_zones; Sample.no_votes] |})
           2018 {| read_latin1 := [Sample.two_zones; Sample.no_votes] |}).
  reflexivity.
Defined.

(** A missing file stops the function with FileNotFoundError. *)
Lemma load_tse_data_missing_file (files : Z -> option TseFile) (year : Z) :
  files year = None -> load_tse_data files year = Raises FileNotFoundError.
Proof.
  intros Hfile.
  now rewrite load_tse_data_no_fallback, load_tse_data_try_outcome, Hfile.
Qed.

(** ** The ideology table *)

Section IdeologyTable.

Lemma additions_rows :
  additions
  = [ {| party := "PSL"; ideology := 8.5; year := 2018 |};
      {| party := "NOVO"; ideology := 9; year := 2018 |};
      {| party := "PATRI"; ideology := 5; year := 2018 |};
      {| party := "PODE"; ideology := 4.5; year := 2018 |};
      {| party := "PMN"; ideology := 5.5; year := 2018 |} ].
Proof. reflexivity. Qed.


Lemma additions_year (r : IdeologyRow) : In r additions -> year r = 2018%Z.
Proof.
  unfold additions. intros H. apply in_map_iff in H as (e & <- & _). reflexivity.
Qed.


(** The hardcoded values are numbers. *)
Lemma additions_not_nan (r : IdeologyRow) :
  In r additions -> isna (ideology r) = false.
Proof.
  rewrite additions_rows. intros H.
  repeat (destruct H as [<- | H]; [reflexivity |]). contradiction.
Qed.


End IdeologyTable.




(** X11. The additions touch 2018 only: for every other year the rows of
    the table are the rows of the base table, in the same order. *)
Theorem load_party_ideologies_other_years (base : list IdeologyRow) (y : Z) :
  y <> 2018%Z ->
  filter (fun r => (year r =? y)%Z) (load_party_ideologies base)
  = filter (fun r => (year r =? y)%Z) base.
Proof.
  intros Hy. unfold load_party_ideologies. rewrite filter_app.
  assert (E : filter (fun r => (year r =? y)%Z) additions = []).
  { apply filter_none, Forall_forall. intros r Hr.
    apply additions_year in Hr. rewrite Hr. apply Z.eqb_neq. congruence. }
  rewrite E. apply app_nil_r.
Qed.

Lemma load_party_ideologies_other_years_witness :
  filter (fun r => (year r =? 2014)%Z) (load_party_ideologies Sample.base_pt)
  = filter (fun r => (year r =? 2014)%Z) Sample.base_pt.
Proof.
  apply (load_party_ideologies_other_years Sample.base_pt 2014). discriminate.
Defined.

(** ** The join *)

Section Join.

Variable votes_df : list VoteRecord.
Variable ideology_year : list IdeologyRow.

(** A row left by [dropna] carries the ideology of a row of the table for
    its party. *)
Lemma dropna_merge_left_matched (m : MergedRow) :
  In m (dropna (merge_left votes_df ideology_year)) ->
  In (votes m) votes_df
  /\ exists r, In r ideology_year
               /\ party r = SG_PARTIDO (votes m)
               /\ ideology r = merged_ideology m
               /\ isna (ideology r) = false.
Proof.
  unfold dropna, merge_left. intros Hm.
  apply filter_In in Hm as [Hm Hna]. apply negb_true_iff in Hna.
  apply in_flat_map in Hm as (v & Hv & Hm).
  destruct (filter (fun r => String.eqb (SG_PARTIDO v) (party r)) ideology_year)
    as [| r0 rs] eqn:E.
  - destruct Hm as [<- | []]. discriminate.
  - apply in_map_iff in Hm as (r & <- & Hr). rewrite <- E in Hr.
    apply filter_In in Hr as [Hr Hp]. apply String.eqb_eq in Hp.
    cbn [votes merged_ideology] in *. split; [exact Hv |].
    exists r. repeat split; auto.
Qed.

Lemma merge_left_kept (v : VoteRecord) (r : IdeologyRow) :
  In v votes_df -> In r ideology_year ->
  party r = SG_PARTIDO v -> isna (ideology r) = false ->
  In {| votes := v; merged_ideology := ideology r |}
     (dropna (merge_left votes_df ideology_year)).
Proof.
  intros Hv Hr Hp Hna. unfold dropna, merge_left.
  apply filter_In. split; [| cbn [merged_ideology]; now rewrite Hna].
  apply in_flat_map. exists v. split; [exact Hv |].
  assert (Hf : In r (filter (fun r => String.eqb (SG_PARTIDO v) (party r)) ideology_year))
    by (apply filter_In; split; [exact Hr | now apply String.eqb_eq]).
  destruct (filter _ ideology_year) as [| r0 rs]; [contradiction |].
  apply in_map_iff. now exists r.
Qed.

Lemma filter_unique_key (key : string) :
  NoDup (map party ideology_year) ->
  (length (filter (fun r => String.eqb key (party r)) ideology_year) <= 1)%nat.
Proof.
  induction ideology_year as [| r l IH]; intros Hnd; cbn [filter map] in *;
    [cbn; lia |].
  apply NoDup_cons_iff in Hnd as [Hnotin Hnd].
  destruct (String.eqb key (party r)) eqn:E; [| now apply IH].
  apply String.eqb_eq in E. subst key. cbn [length].
  assert (Hnil : filter (fun r0 => String.eqb (party r) (party r0)) l = []).
  { apply filter_none, Forall_forall. intros r1 H1.
    apply String.eqb_neq. intros Heq. apply Hnotin. rewrite Heq.
    now apply in_map. }
  rewrite Hnil. cbn. lia.
Qed.

End Join.

(** X12. A row is left after the join and [dropna] exactly when it pairs a
    tally with the value, not NaN, of an ideology row of its party: a tally
    of a party without such a row is excluded, every other tally is kept. *)
Theorem dropna_merge_left_rows
  (votes_df : list VoteRecord) (ideology_year : list IdeologyRow) (m : MergedRow) :
  In m (dropna (merge_left votes_df ideology_year))
  <-> In (votes m) votes_df
      /\ exists r, In r ideology_year
                   /\ party r = SG_PARTIDO (votes m)
                   /\ ideology r = merged_ideology m
                   /\ isna (ideology r) = false.
Proof.
  split.
  - apply dropna_merge_left_matched.
  - intros (Hv & r & Hr & Hp & Hi & Hna).
    destruct m as [v i]. cbn [votes merged_ideology] in *. subst i.
    now apply merge_left_kept.
Qed.

(** X13. With at most one ideology row per party the left join has
    exactly one row per tally, in the order of the tallies: it neither
    drops nor repeats one. *)
Theorem merge_left_unique_keys
  (votes_df : list VoteRecord) (ideology_year : list IdeologyRow) :
  NoDup (map party ideology_year) ->
  map votes (merge_left votes_df ideology_year) = votes_df.
Proof.
  intros Hnd. unfold merge_left.
  induction votes_df as [| v l IH]; [reflexivity |].
  cbn [flat_map]. rewrite map_app, IH. clear IH.
  pose proof (filter_unique_key ideology_year (SG_PARTIDO v) Hnd) as Hlen.
  destruct (filter _ ideology_year) as [| r0 [| r1 rs]]; cbn in Hlen |- *;
    try reflexivity.
  lia.
Qed.

Lemma merge_left_unique_keys_witness :
  map votes (merge_left Sample.votes_ab
               (filter (fun r => (year r =? 2018)%Z) Sample.base_ab))
  = Sample.votes_ab.
Proof.
  apply (merge_left_unique_keys Sample.votes_ab
           (filter (fun r => (year r =? 2018)%Z) Sample.base_ab)).
  cbn. repeat constructor; cbn; intuition discriminate.
Defined.

(** X14. In 2018 a tally of PSL, NOVO, PATRI, PODE or PMN is never excluded
    for want of an ideology, whatever the base table holds. *)
Theorem additions_classified (base : list IdeologyRow)
  (votes_df : list VoteRecord) (v : VoteRecord) :
  In v votes_df ->
  In (SG_PARTIDO v) (map fst PARTY_IDEOLOGY_2018_ADDITIONS) ->
  In v (map votes
          (dropna (merge_left votes_df
                     (filter (fun r => (year r =? 2018)%Z)
                             (load_party_ideologies base))))).
Proof.
  intros Hv Hparty.
  apply in_map_iff in Hparty as ([p score] & Hp & Hentry). cbn [fst] in Hp.
  set (r := {| party := p; ideology := score; year := 2018 |}).
  assert (Hr : In r additions)
    by (unfold additions; apply in_map_iff; now exists (p, score)).
  apply in_map_iff. exists {| votes := v; merged_ideology := ideology r |}.
  split; [reflexivity |].
  apply merge_left_kept; try assumption.
  - apply filter_In. split; [| reflexivity].
    unfold load_party_ideologies. apply in_app_iff. now right.
  - now apply additions_not_nan.
Qed.

Lemma additions_classified_witness :
  In (Sample.presidente 1 "NOVO" 12)
     (map votes
        (dropna (merge_left [Sample.presidente 1 "NOVO" 12]
                   (filter (fun r => (year r =? 2018)%Z)
                           (load_party_ideologies Sample.base_pt))))).
Proof.
  apply (additions_classified Sample.base_pt
           [Sample.presidente 1 "NOVO" 12] (Sample.presidente 1 "NOVO" 12)).
  - now left.
  - cbn. right. now left.
Defined.

(** ** Groups and results *)

Section Groups.

Lemma for_each_inv {A B : Type} (f : A -> pyresult B) (xs : list A) (ys : list B) :
  for_each f xs = Returns ys -> Forall2 (fun x y => f x = Returns y) xs ys.
Proof.
  revert ys. induction xs as [| x xs IH]; intros ys H; cbn [for_each] in H.
  - injection H as <-. constructor.
  - destruct (f x) as [y |] eqn:Hy; cbn [bind] in H; [| discriminate].
    destruct (for_each f xs) as [ys' |]; cbn [bind] in H; [| discriminate].
    injection H as <-. constructor; auto.
Qed.

Lemma for_each_returns {A B : Type} (f : A -> pyresult B) (xs : list A) :
  (forall x, In x xs -> exists y, f x = Returns y) ->
  exists ys, for_each f xs = Returns ys.
Proof.
  induction xs as [| x xs IH]; intros H; cbn [for_each].
  - now exists [].
  - destruct (H x (or_introl eq_refl)) as [y ->].
    destruct IH as [ys ->]; [intros; apply H; now right |].
    now exists (y :: ys).
Qed.

Lemma Forall2_in_r {A B : Type} (P : A -> B -> Prop) (xs : list A) (ys : list B)
  (b : B) :
  Forall2 P xs ys -> In b ys -> exists a, In a xs /\ P a b.
Proof.
  induction 1 as [| x b' xs ys Hxb _ IH]; intros Hin; [contradiction |].
  destruct Hin as [-> | Hin].
  - exists x. split; [now left | exact Hxb].
  - destruct (IH Hin) as (a & Ha & HP). exists a. split; [now right | exact HP].
Qed.

Lemma Forall2_in_l {A B : Type} (P : A -> B -> Prop) (xs : list A) (ys : list B)
  (a : A) :
  Forall2 P xs ys -> In a xs -> exists b, In b ys /\ P a b.
Proof.
  induction 1 as [| a' y xs ys Hay _ IH]; intros Hin; [contradiction |].
  destruct Hin as [-> | Hin].
  - exists y. split; [now left | exact Hay].
  - destruct (IH Hin) as (b & Hb & HP). exists b. split; [now right | exact HP].
Qed.

Lemma in_insert_key (k a : Z) (keys : list Z) :
  In k (insert_key a keys) <-> k = a \/ In k keys.
Proof.
  induction keys as [| h t IH]; cbn [insert_key In].
  - intuition.
  - destruct (a <? h)%Z eqn:Hlt; [cbn [In]; intuition |].
    destruct (a =? h)%Z eqn:Heq.
    + apply Z.eqb_eq in Heq. subst. cbn [In]. intuition.
    + cbn [In]. rewrite IH. intuition.
Qed.

Lemma in_group_keys (k : Z) (col : list Z) : In k (group_keys col) <-> In k col.
Proof.
  unfold group_keys. induction col as [| a col IH]; cbn [fold_right In]; [tauto |].
  rewrite in_insert_key, IH. intuition.
Qed.

(** A group of [groupby] is the rows of its key, and has one at least. *)
Lemma in_groupby {A : Type} (key : A -> Z) (df : list A) (k : Z) (group : list A) :
  In (k, group) (groupby key df) ->
  group = filter (fun r => (key r =? k)%Z) df /\ group <> [].
Proof.
  unfold groupby. intros H. apply in_map_iff in H as (k' & E & Hk).
  injection E as -> <-. split; [reflexivity |].
  apply in_group_keys, in_map_iff in Hk as (r & Hr & Hin).
  intros Hnil.
  assert (Hf : In r (filter (fun r => (key r =? k)%Z) df))
    by (apply filter_In; split; [exact Hin | now apply Z.eqb_eq]).
  rewrite Hnil in Hf. contradiction.
Qed.

Lemma groupby_nonempty {A : Type} (key : A -> Z) (df : list A) :
  df <> [] -> groupby key df <> [].
Proof.
  destruct df as [| r df]; [congruence |]. intros _ Hnil.
  assert (Hk : In (key r) (group_keys (map key (r :: df))))
    by (apply in_group_keys; now left).
  unfold groupby in Hnil. apply map_eq_nil in Hnil.
  rewrite Hnil in Hk. contradiction.
Qed.

(** The rows of a group all divide by the total of that group. *)
Lemma group_of_with_vote_share (df : list MergedRow) (k : Z) :
  group_of k (with_vote_share df)
  = map (fun m => {| merged := m;
                     vote_share := fdiv (of_int64 (QT_VOTOS (votes m)))
                                        (of_int64 (municipality_totals df k)) |})
        (filter (fun m => (municipio m =? k)%Z) df).
Proof.
  unfold group_of, with_vote_share. rewrite filter_map_swap. cbn [merged].
  apply map_ext_in. intros m Hm. apply filter_In in Hm as [_ Hk].
  apply Z.eqb_eq in Hk. now rewrite Hk.
Qed.

Variable pow : float -> float -> float.
Variable votes_df : list VoteRecord.
Variable ideology_df : list IdeologyRow.
Variable y : Z.

Let remaining : list MergedRow :=
  dropna (merge_left votes_df (filter (fun r => (year r =? y)%Z) ideology_df)).

Lemma group_arrays_same_length (group : list ShareRow) :
  length (map vote_share group)
  = length (map (fun s => merged_ideology (merged s)) group).
Proof. now rewrite !length_map. Qed.

(** The function raises nothing: the two arrays given to
    [esteban_ray_index] are columns of one group. *)
Lemma calculate_municipality_polarization_returns :
  exists results,
    calculate_municipality_polarization pow votes_df ideology_df y = Returns results.
Proof.
  unfold calculate_municipality_polarization.
  apply for_each_returns. intros [mun group] _.
  rewrite esteban_ray_index_same_length by apply group_arrays_same_length.
  cbn [bind]. eauto.
Qed.

Lemma calculate_municipality_polarization_inv (results : list PolarizationResult) :
  calculate_municipality_polarization pow votes_df ideology_df y = Returns results ->
  Forall2 (emitted_for pow (municipality_totals remaining) y)
          (groupby (fun r => municipio (merged r))
                   (merged_shares votes_df ideology_df y))
          results.
Proof.
  unfold calculate_municipality_polarization. intros H.
  apply for_each_inv in H. eapply Forall2_impl; [| exact H].
  intros [mun group] r Hr. cbv beta iota zeta in Hr.
  destruct (esteban_ray_index _ _ _ _) as [er |] eqn:Her; cbn [bind] in Hr;
    [| discriminate].
  injection Hr as <-. unfold emitted_for. cbn. auto.
Qed.

(** The column [num_partidos] is the number of rows of the group of
    [merged], one per tally and matching ideology row. *)
Lemma num_partidos_counts_rows (results : list PolarizationResult)
  (r : PolarizationResult) :
  calculate_municipality_polarization pow votes_df ideology_df y = Returns results ->
  In r results ->
  num_partidos r
  = length (group_of (cod_municipio r) (merged_shares votes_df ideology_df y))
  /\ (1 <= num_partidos r)%nat.
Proof.
  intros H Hr. apply calculate_municipality_polarization_inv in H.
  destruct (Forall2_in_r _ _ _ _ H Hr) as ([mun group] & Hkg & Hcod & _ & Hnum & _).
  apply in_groupby in Hkg as [-> Hne]. cbn [fst snd] in *.
  rewrite Hcod, Hnum. split; [reflexivity |].
  destruct (filter _ _) in Hne |- *; [congruence | cbn [length]; lia].
Qed.

End Groups.

(** The end-to-end scenario: one output row, the unclassified party C
    excluded from the count, the total and the shares. *)
Example calculate_municipality_polarization_600_400 (pow : float -> float -> float) :
  calculate_municipality_polarization pow Sample.votes_ab Sample.base_ab 2018
  = Returns
      [ {| cod_municipio := 1; ano := 2018;
           polarizacao_er :=
             (fmul 1
                (fadd (fadd 0 (fmul (fmul (pow 0x1.3333333333333p-1
                                               0x1.4cccccccccccdp+1)
                                          0x1.999999999999ap-2) 6))
                      (fmul (fmul (pow 0x1.999999999999ap-2 0x1.4cccccccccccdp+1)
                                  0x1.3333333333333p-1) 6)))%float;
           num_partidos := 2; total_votos := 1000 |} ].
Proof. reflexivity. Qed.

(** C4. One party tallied in two electoral zones of a municipality: the
    group holds one qualifying party, and [num_partidos] is 2, the number
    of rows of the group. *)
Theorem num_partidos_two_zones (pow : float -> float -> float) :
  exists r,
    calculate_municipality_polarization pow Sample.two_zones Sample.base_pt 2018
    = Returns [r]
    /\ cod_municipio r = 1%Z
    /\ num_partidos r = 2%nat
    /\ Spec.distinct_parties
         (group_of 1 (merged_shares Sample.two_zones Sample.base_pt 2018))
       = 1%nat.
Proof.
  eexists. split; [reflexivity |]. repeat split.
Qed.

(** ** Vote shares *)

Section VoteShares.

Variable votes_df : list VoteRecord.
Variable ideology_df : list IdeologyRow.
Variable y : Z.

Let remaining : list MergedRow :=
  dropna (merge_left votes_df (filter (fun r => (year r =? y)%Z) ideology_df)).

(** The group of a municipality: the remaining rows of the municipality,
    each with its votes over the int64 total of these rows. *)
Lemma group_of_merged_shares (k : Z) :
  group_of k (merged_shares votes_df ideology_df y)
  = map (fun m =>
           {| merged := m;
              vote_share :=
                fdiv (of_int64 (QT_VOTOS (votes m)))
                     (of_int64
                        (int64_sum
                           (map (fun m => QT_VOTOS (votes m))
                                (filter (fun m => (municipio m =? k)%Z) remaining)))) |})
        (filter (fun m => (municipio m =? k)%Z) remaining).
Proof.
  unfold merged_shares. fold remaining. apply group_of_with_vote_share.
Qed.

Lemma NoDup_map_injective {A B : Type} (f : A -> B) (l : list A) (a b : A) :
  NoDup (map f l) -> In a l -> In b l -> f a = f b -> a = b.
Proof.
  induction l as [| x l IH]; intros Hnd Ha Hb Hf; [contradiction |].
  cbn [map] in Hnd. apply NoDup_cons_iff in Hnd as [Hx Hnd].
  destruct Ha as [-> | Ha], Hb as [-> | Hb]; auto.
  - exfalso. apply Hx. rewrite Hf. now apply in_map.
  - exfalso. apply Hx. rewrite <- Hf. now apply in_map.
Qed.

End VoteShares.

(** C5, as stated, fails on "the vote shares within each group sum to 1
    regardless of the raw data": a municipality whose only classified party
    received no vote has the share 0/0, that is NaN, and the sum NaN is not
    1 up to any tolerance. *)
Lemma vote_shares_sum_not_one :
  ~ exists tolerance,
      Spec.shares_sum_to_one tolerance Sample.no_votes Sample.base_pt 2018.
Proof.
  intros (tolerance & H). specialize (H 1%Z).
  apply (leb_nan_false tolerance). apply H. discriminate.
Qed.

Example vote_shares_zero_total :
  map vote_share (group_of 1 (merged_shares Sample.no_votes Sample.base_pt 2018))
  = [nan].
Proof. reflexivity. Qed.

(** Nor is the sum 1.0 exactly at ordinary votes: three classified parties
    with 1, 4 and 1 votes have the shares 1/6, 4/6 and 1/6, whose float64
    sum is 0.9999999999999999. *)
Example vote_shares_sum_rounded :
  fsum (map vote_share
          (group_of 1 (merged_shares Sample.votes_141 Sample.base_abc 2018)))
  = 0x1.fffffffffffffp-1%float
  /\ ~ Spec.shares_sum_to_one 0 Sample.votes_141 Sample.base_abc 2018.
Proof.
  split; [reflexivity |]. intros H. specialize (H 1%Z).
  assert (Hone : false = true); [| discriminate].
  apply H. discriminate.
Qed.

(** C5. In a group where every qualifying party has one remaining record,
    the records of the group are the records of the municipality left
    after dropping those without ideology, each party has the one share of
    its record, and this share is the float64 quotient of the votes of the
    party and the int64 sum of the votes of these remaining records: the
    votes of an excluded party are in neither.  When this sum is 0 the
    share is no number: it is NaN or an infinity. *)
Theorem vote_share_of_party
  (votes_df : list VoteRecord) (ideology_df : list IdeologyRow) (y k : Z) :
  NoDup (map (fun r => SG_PARTIDO (votes (merged r)))
             (group_of k (merged_shares votes_df ideology_df y))) ->
  map merged (group_of k (merged_shares votes_df ideology_df y))
  = filter (fun m => (municipio m =? k)%Z)
      (dropna (merge_left votes_df (filter (fun r => (year r =? y)%Z) ideology_df)))
  /\ forall r,
       In r (group_of k (merged_shares votes_df ideology_df y)) ->
       let total :=
         int64_sum (map (fun s => QT_VOTOS (votes (merged s)))
                        (group_of k (merged_shares votes_df ideology_df y))) in
       vote_share r = fdiv (of_int64 (QT_VOTOS (votes (merged r)))) (of_int64 total)
       /\ (forall r',
             In r' (group_of k (merged_shares votes_df ideology_df y)) ->
             SG_PARTIDO (votes (merged r')) = SG_PARTIDO (votes (merged r)) ->
             r' = r)
       /\ (total = 0%Z ->
           PrimFloat.is_nan (vote_share r) = true
           \/ fabs (vote_share r) = infinity).
Proof.
  intros Hnd. split; [| intros r Hr total].
  - rewrite group_of_merged_shares, map_map. cbn [merged]. apply map_id.
  - assert (Hshare : vote_share r
                     = fdiv (of_int64 (QT_VOTOS (votes (merged r)))) (of_int64 total)).
    { subst total. rewrite group_of_merged_shares in Hr |- *.
      apply in_map_iff in Hr as (m & <- & _). cbn [merged vote_share].
      rewrite map_map. reflexivity. }
    split; [exact Hshare | split].
    + intros r' Hr' Hparty.
      exact (NoDup_map_injective _ _ r' r Hnd Hr' Hr Hparty).
    + intros Hzero. rewrite Hshare, Hzero. apply fdiv_zero_divisor.
Qed.

(** The end-to-end scenario: A has 600 votes, B 400; the 250 votes of the
    unclassified party C are in no share. *)
Lemma vote_share_of_party_witness :
  map merged (group_of 1 (merged_shares Sample.votes_ab Sample.base_ab 2018))
  = filter (fun m => (municipio m =? 1)%Z)
      (dropna (merge_left Sample.votes_ab
                 (filter (fun r => (year r =? 2018)%Z) Sample.base_ab)))
  /\ forall r,
       In r (group_of 1 (merged_shares Sample.votes_ab Sample.base_ab 2018)) ->
       let total :=
         int64_sum (map (fun s => QT_VOTOS (votes (merged s)))
                        (group_of 1 (merged_shares Sample.votes_ab
                                                   Sample.base_ab 2018))) in
       vote_share r = fdiv (of_int64 (QT_VOTOS (votes (merged r)))) (of_int64 total)
       /\ (forall r',
             In r' (group_of 1 (merged_shares Sample.votes_ab Sample.base_ab 2018)) ->
             SG_PARTIDO (votes (merged r')) = SG_PARTIDO (votes (merged r)) ->
             r' = r)
       /\ (total = 0%Z ->
           PrimFloat.is_nan (vote_share r) = true
           \/ fabs (vote_share r) = infinity).
Proof.
  apply (vote_share_of_party Sample.votes_ab Sample.base_ab 2018 1).
  cbn. repeat constructor; cbn; intuition discriminate.
Defined.

Example vote_shares_600_400 :
  map vote_share (group_of 1 (merged_shares Sample.votes_ab Sample.base_ab 2018))
  = [0x1.3333333333333p-1; 0x1.999999999999ap-2]%float
  /\ int64_sum (map (fun s => QT_VOTOS (votes (merged s)))
                    (group_of 1 (merged_shares Sample.votes_ab Sample.base_ab 2018)))
     = 1000%Z.
Proof. split; reflexivity. Qed.

(** ** A group of one party *)

(** C6. A municipality where only PSL is tallied, once, with a base table
    that classifies PSL in 2018: the group holds one qualifying party, in
    two rows, one per ideology row of PSL, with the shares 5/10 and 5/10 at
    the positions 3.0 and 8.5, and the index is not 0 but
    2 * 0.5^2.6 * 0.5 * 5.5 = 0.9071616886563647, with the 5 votes counted
    twice in [total_votos]. *)
Theorem one_party_group_index (pow : float -> float -> float) :
  pow 0.5%float 0x1.4cccccccccccdp+1%float = 0x1.51cb453b9536cp-3%float ->
  calculate_municipality_polarization pow Sample.only_psl
    (load_party_ideologies Sample.base_with_psl) 2018
  = Returns [ {| cod_municipio := 1; ano := 2018;
                 polarizacao_er := 0x1.d0777f31ed2b4p-1;
                 num_partidos := 2; total_votos := 10 |} ]
  /\ Spec.distinct_parties
       (group_of 1 (merged_shares Sample.only_psl
                      (load_party_ideologies Sample.base_with_psl) 2018))
     = 1%nat.
Proof.
  intros Hpow. split; [| reflexivity].
  assert (E : calculate_municipality_polarization pow Sample.only_psl
                (load_party_ideologies Sample.base_with_psl) 2018
              = Returns
                  [ {| cod_municipio := 1; ano := 2018;
                       polarizacao_er :=
                         (fmul 1
                            (fadd (fadd 0 (fmul (fmul (pow 0.5 0x1.4cccccccccccdp+1)
                                                      0.5) 5.5))
                                  (fmul (fmul (pow 0.5 0x1.4cccccccccccdp+1) 0.5)
                                        5.5)))%float;
                       num_partidos := 2; total_votos := 10 |} ])
    by reflexivity.
  rewrite E, Hpow. reflexivity.
Qed.

Lemma one_party_group_index_witness :
  calculate_municipality_polarization Sample.pow Sample.only_psl
    (load_party_ideologies Sample.base_with_psl) 2018
  = Returns [ {| cod_municipio := 1; ano := 2018;
                 polarizacao_er := 0x1.d0777f31ed2b4p-1;
                 num_partidos := 2; total_votos := 10 |} ]
  /\ Spec.distinct_parties
       (group_of 1 (merged_shares Sample.only_psl
                      (load_party_ideologies Sample.base_with_psl) 2018))
     = 1%nat.
Proof.
  apply (one_party_group_index Sample.pow). reflexivity.
Defined.

(** ** The groups *)

Section GroupKeys.

Lemma insert_key_hd (k a : Z) (keys : list Z) :
  (a < k)%Z -> HdRel Z.lt a keys -> HdRel Z.lt a (insert_key k keys).
Proof.
  intros Hak Hhd. destruct keys as [| h t]; simpl.
  - now constructor.
  - destruct (k <? h)%Z; [now constructor |].
    destruct (k =? h)%Z; [exact Hhd |].
    constructor. now inversion Hhd.
Qed.

Lemma insert_key_sorted (k : Z) (keys : list Z) :
  Sorted Z.lt keys -> Sorted Z.lt (insert_key k keys).
Proof.
  induction 1 as [| h t Ht IH Hhd]; simpl.
  - repeat constructor.
  - destruct (k <? h)%Z eqn:Hlt.
    + apply Z.ltb_lt in Hlt. constructor; [now constructor | now constructor].
    + destruct (k =? h)%Z eqn:Heq; [now constructor |].
      apply Z.ltb_ge in Hlt. apply Z.eqb_neq in Heq.
      constructor; [exact IH |]. apply insert_key_hd; [lia | exact Hhd].
Qed.

Lemma group_keys_sorted (col : list Z) : StronglySorted Z.lt (group_keys col).
Proof.
  apply Sorted_StronglySorted; [exact Z.lt_trans |].
  unfold group_keys. induction col as [| a col IH]; simpl; [constructor |].
  now apply insert_key_sorted.
Qed.

Lemma strictly_sorted_NoDup (keys : list Z) : StronglySorted Z.lt keys -> NoDup keys.
Proof.
  induction 1 as [| k keys _ IH Hall]; constructor; [| exact IH].
  intros Hin. rewrite Forall_forall in Hall. specialize (Hall k Hin). lia.
Qed.

Lemma group_keys_NoDup (col : list Z) : NoDup (group_keys col).
Proof. apply strictly_sorted_NoDup, group_keys_sorted. Qed.

Lemma groupby_keys {A : Type} (key : A -> Z) (df : list A) :
  map fst (groupby key df) = group_keys (map key df).
Proof.
  unfold groupby. rewrite map_map. cbn [fst]. apply map_id.
Qed.

Lemma filter_split_permutation {A : Type} (f : A -> bool) (l : list A) :
  Permutation (filter f l ++ filter (fun a => negb (f a)) l) l.
Proof.
  induction l as [| a l IH]; [constructor |].
  cbn [filter]. destruct (f a); cbn [negb app].
  - now constructor.
  - rewrite <- Permutation_middle. now constructor.
Qed.

Lemma filter_filter_other {A : Type} (key : A -> Z) (k k' : Z) (l : list A) :
  k' <> k ->
  filter (fun r => (key r =? k')%Z) (filter (fun r => negb (key r =? k)%Z) l)
  = filter (fun r => (key r =? k')%Z) l.
Proof.
  intros Hne. induction l as [| a l IH]; [reflexivity |].
  cbn [filter]. destruct (key a =? k)%Z eqn:E1; cbn [negb filter].
  - apply Z.eqb_eq in E1. assert (E2 : (key a =? k')%Z = false)
      by (apply Z.eqb_neq; congruence).
    now rewrite E2.
  - destruct (key a =? k')%Z; now rewrite IH.
Qed.

(** Distinct keys that cover the frame cut it into its groups. *)
Lemma partition_by_keys {A : Type} (key : A -> Z) (keys : list Z) (df : list A) :
  NoDup keys ->
  (forall r, In r df -> In (key r) keys) ->
  Permutation (flat_map (fun k => filter (fun r => (key r =? k)%Z) df) keys) df.
Proof.
  intros Hnd. revert df. induction Hnd as [| k keys Hnotin _ IH]; intros df Hcov.
  - destruct df as [| r df]; [constructor |].
    destruct (Hcov r (or_introl eq_refl)).
  - cbn [flat_map].
    etransitivity;
      [| apply (filter_split_permutation (fun r => (key r =? k)%Z) df)].
    apply Permutation_app_head.
    etransitivity; [| apply (IH (filter (fun r => negb (key r =? k)%Z) df))].
    + rewrite !flat_map_concat_map. apply Permutation_refl'. f_equal.
      apply map_ext_in. intros k' Hk'. symmetry. apply filter_filter_other.
      congruence.
    + intros r Hr. apply filter_In in Hr as [Hr Hk].
      apply negb_true_iff, Z.eqb_neq in Hk.
      destruct (Hcov r Hr) as [E | Hin]; [congruence | exact Hin].
Qed.

(** Every row of the frame is in exactly one group. *)
Lemma groupby_partition {A : Type} (key : A -> Z) (df : list A) :
  Permutation (concat (map snd (groupby key df))) df.
Proof.
  unfold groupby. rewrite map_map. cbn [snd]. rewrite <- flat_map_concat_map.
  apply partition_by_keys.
  - apply group_keys_NoDup.
  - intros r Hr. apply in_group_keys. now apply in_map.
Qed.

End GroupKeys.

(** ** The rows of [calculate_municipality_polarization] *)

Section Results.

Variable pow : float -> float -> float.
Variable votes_df : list VoteRecord.
Variable ideology_df : list IdeologyRow.
Variable y : Z.
Variable results : list PolarizationResult.

Let remaining : list MergedRow :=
  dropna (merge_left votes_df (filter (fun r => (year r =? y)%Z) ideology_df)).

Hypothesis calculated :
  calculate_municipality_polarization pow votes_df ideology_df y = Returns results.

Lemma Forall2_map_eq {A B C : Type} (P : A -> B -> Prop) (f : B -> C) (g : A -> C)
  (xs : list A) (ys : list B) :
  Forall2 P xs ys -> (forall x b, P x b -> f b = g x) -> map f ys = map g xs.
Proof.
  intros H HP. induction H as [| x b xs ys Hxb _ IH]; [reflexivity |].
  cbn [map]. now rewrite IH, (HP x b Hxb).
Qed.

Lemma shares_municipio :
  map (fun s => municipio (merged s)) (merged_shares votes_df ideology_df y)
  = map municipio remaining.
Proof.
  unfold merged_shares, with_vote_share. fold remaining.
  rewrite map_map. reflexivity.
Qed.

Lemma results_cod_municipio :
  map cod_municipio results = group_keys (map municipio remaining).
Proof.
  pose proof (calculate_municipality_polarization_inv _ _ _ _ _ calculated) as H.
  rewrite (Forall2_map_eq _ cod_municipio fst _ _ H)
    by (intros kg r Hr; apply Hr).
  now rewrite groupby_keys, shares_municipio.
Qed.

Lemma results_num_partidos :
  map num_partidos results
  = map (fun kg : Z * list ShareRow => length (snd kg))
        (groupby (fun s => municipio (merged s))
                 (merged_shares votes_df ideology_df y)).
Proof.
  pose proof (calculate_municipality_polarization_inv _ _ _ _ _ calculated) as H.
  apply (Forall2_map_eq _ _ _ _ _ H). intros kg r Hr. apply Hr.
Qed.

Lemma results_total_votos :
  map total_votos results
  = map (municipality_totals remaining) (group_keys (map municipio remaining)).
Proof.
  pose proof (calculate_municipality_polarization_inv _ _ _ _ _ calculated) as H.
  rewrite (Forall2_map_eq _ total_votos
             (fun kg => municipality_totals remaining (fst kg)) _ _ H)
    by (intros kg r Hr; apply Hr).
  rewrite <- (map_map fst (municipality_totals remaining)).
  now rewrite groupby_keys, shares_municipio.
Qed.

End Results.

(** X15. The frame of a year has one row per municipality that has a
    remaining tally, and no other row, in strictly ascending order of the
    municipality code. *)
Theorem calculate_one_row_per_municipality (pow : float -> float -> float)
  (votes_df : list VoteRecord) (ideology_df : list IdeologyRow) (y : Z)
  (results : list PolarizationResult) :
  calculate_municipality_polarization pow votes_df ideology_df y = Returns results ->
  StronglySorted Z.lt (map cod_municipio results)
  /\ forall k,
       In k (map cod_municipio results)
       <-> exists m,
             In m (dropna (merge_left votes_df
                             (filter (fun r => (year r =? y)%Z) ideology_df)))
             /\ municipio m = k.
Proof.
  intros H. rewrite (results_cod_municipio _ _ _ _ _ H). split.
  - apply group_keys_sorted.
  - intros k. rewrite in_group_keys, in_map_iff.
    split; intros (m & H1 & H2); exists m; now split.
Qed.

Lemma calculate_one_row_per_municipality_witness :
  exists results,
    calculate_municipality_polarization Sample.pow
      Sample.two_parties (load_party_ideologies Sample.base_pt) 2018
    = Returns results
    /\ StronglySorted Z.lt (map cod_municipio results)
    /\ forall k,
         In k (map cod_municipio results)
         <-> exists m,
               In m (dropna (merge_left Sample.two_parties
                               (filter (fun r => (year r =? 2018)%Z)
                                       (load_party_ideologies Sample.base_pt))))
               /\ municipio m = k.
Proof.
  destruct (calculate_municipality_polarization_returns Sample.pow
              Sample.two_parties (load_party_ideologies Sample.base_pt) 2018)
    as [results H].
  exists results. split; [exact H |].
  exact (calculate_one_row_per_municipality _ _ _ _ _ H).
Defined.


(** ** Conservation *)

Section Conservation.

Lemma fold_add_right (l : list Z) (a : Z) :
  fold_left Z.add l a = (a + fold_right Z.add 0 l)%Z.
Proof.
  revert a. induction l as [| v l IH]; intros a; cbn [fold_left fold_right];
    [lia |].
  rewrite IH. lia.
Qed.

Lemma fold_add_permutation (l l' : list Z) :
  Permutation l l' -> fold_left Z.add l 0%Z = fold_left Z.add l' 0%Z.
Proof.
  intros H. rewrite !fold_add_right. f_equal.
  induction H; cbn [fold_right]; lia.
Qed.

Lemma fold_add_flat_map {A : Type} (f : A -> list Z) (l : list A) :
  fold_left Z.add (flat_map f l) 0%Z
  = fold_left Z.add (map (fun a => fold_left Z.add (f a) 0%Z) l) 0%Z.
Proof.
  rewrite !fold_add_right. f_equal.
  induction l as [| a l IH]; [reflexivity |].
  cbn [flat_map map fold_right]. rewrite <- IH, fold_add_right.
  induction (f a) as [| v vs IHv]; cbn [app fold_right]; lia.
Qed.

(** An int64 sum is the sum modulo 2^64. *)
Lemma wrap64_mod (z : Z) : (wrap64 z mod 2 ^ 64 = z mod 2 ^ 64)%Z.
Proof.
  unfold wrap64.
  rewrite Zminus_mod, Zmod_mod, <- Zminus_mod.
  f_equal. lia.
Qed.

(** A sum that fits is not changed. *)
Lemma wrap64_small (z : Z) : (- 2 ^ 63 <= z < 2 ^ 63)%Z -> wrap64 z = z.
Proof.
  intros Hz. unfold wrap64. rewrite Z.mod_small; lia.
Qed.

Lemma fold_add_wrap64_mod (l : list Z) :
  (fold_left Z.add (map wrap64 l) 0 mod 2 ^ 64 = fold_left Z.add l 0 mod 2 ^ 64)%Z.
Proof.
  rewrite !fold_add_right, !Z.add_0_l.
  induction l as [| z l IH]; [reflexivity |].
  cbn [map fold_right].
  rewrite Z.add_mod, wrap64_mod, IH, <- Z.add_mod by lia. reflexivity.
Qed.

Lemma fold_add_nonneg (l : list Z) :
  Forall (fun v => (0 <= v)%Z) l -> (0 <= fold_left Z.add l 0)%Z.
Proof.
  intros H. rewrite fold_add_right, Z.add_0_l.
  induction H; cbn [fold_right]; lia.
Qed.

Lemma fold_add_member_le (l : list Z) (x : Z) :
  Forall (fun v => (0 <= v)%Z) l -> In x l -> (x <= fold_left Z.add l 0)%Z.
Proof.
  intros H Hx. rewrite fold_add_right, Z.add_0_l.
  induction H as [| v l Hv Hl IH]; [contradiction |].
  pose proof (fold_add_nonneg l Hl) as Hsum.
  rewrite fold_add_right, Z.add_0_l in Hsum.
  cbn [fold_right]. destruct Hx as [-> | Hx]; [lia |].
  specialize (IH Hx). lia.
Qed.

End Conservation.

(** X16. No remaining tally is lost or counted twice when the frame is cut
    into municipalities: the [num_partidos] of a year add up to the number
    of remaining rows, and the [total_votos] to the remaining votes modulo
    2^64, exactly so when no vote count is negative and the remaining votes
    total less than 2^63. *)
Theorem calculate_conserves_rows_and_votes (pow : float -> float -> float)
  (votes_df : list VoteRecord) (ideology_df : list IdeologyRow) (y : Z)
  (results : list PolarizationResult) :
  calculate_municipality_polarization pow votes_df ideology_df y = Returns results ->
  let remaining :=
    dropna (merge_left votes_df (filter (fun r => (year r =? y)%Z) ideology_df)) in
  let remaining_votes :=
    fold_left Z.add (map (fun m => QT_VOTOS (votes m)) remaining) 0%Z in
  list_sum (map num_partidos results) = length remaining
  /\ (fold_left Z.add (map total_votos results) 0 mod 2 ^ 64
      = remaining_votes mod 2 ^ 64)%Z
  /\ (Forall (fun m => (0 <= QT_VOTOS (votes m))%Z) remaining ->
      (remaining_votes < 2 ^ 63)%Z ->
      fold_left Z.add (map total_votos results) 0%Z = remaining_votes).
Proof.
  intros H remaining remaining_votes.
  set (group_votes := fun k =>
         map (fun m => QT_VOTOS (votes m))
             (filter (fun r => (municipio r =? k)%Z) remaining)).
  set (keys := group_keys (map municipio remaining)).
  assert (Htotals : map total_votos results
                    = map wrap64 (map (fun k => fold_left Z.add (group_votes k) 0%Z) keys)).
  { rewrite (results_total_votos _ _ _ _ _ H). fold remaining. fold keys.
    rewrite map_map. reflexivity. }
  assert (Hgroups : fold_left Z.add
                      (map (fun k => fold_left Z.add (group_votes k) 0%Z) keys) 0%Z
                    = remaining_votes).
  { rewrite <- fold_add_flat_map. apply fold_add_permutation.
    unfold group_votes.
    rewrite flat_map_concat_map, <- (map_map _ (map (fun m => QT_VOTOS (votes m)))).
    rewrite <- concat_map, <- flat_map_concat_map.
    apply Permutation_map, partition_by_keys.
    - apply group_keys_NoDup.
    - intros r Hr. apply in_group_keys. now apply in_map. }
  split; [| split].
  - rewrite (results_num_partidos _ _ _ _ _ H).
    rewrite <- (map_map snd (@length ShareRow)), <- length_concat.
    rewrite (Permutation_length (groupby_partition _ _)).
    unfold merged_shares, with_vote_share. now rewrite length_map.
  - now rewrite Htotals, fold_add_wrap64_mod, Hgroups.
  - intros Hnonneg Hfits. rewrite Htotals, <- Hgroups.
    assert (Hsums : Forall (fun v => (0 <= v)%Z)
                      (map (fun k => fold_left Z.add (group_votes k) 0%Z) keys)).
    { apply Forall_map, Forall_forall. intros k _. apply fold_add_nonneg.
      unfold group_votes. apply Forall_map, Forall_forall. intros m Hm.
      apply filter_In in Hm as [Hm _].
      rewrite Forall_forall in Hnonneg. now apply Hnonneg. }
    f_equal. rewrite <- (map_id (map _ keys)) at 2.
    apply map_ext_in. intros v Hv. apply wrap64_small.
    pose proof (fold_add_member_le _ v Hsums Hv) as Hle.
    rewrite Forall_forall in Hsums. specialize (Hsums v Hv).
    rewrite Hgroups in Hle. lia.
Qed.

Lemma calculate_conserves_rows_and_votes_witness :
  exists results,
    calculate_municipality_polarization Sample.pow
      Sample.two_parties (load_party_ideologies Sample.base_pt) 2018
    = Returns results
    /\ list_sum (map num_partidos results) = 3%nat
    /\ (fold_left Z.add (map total_votos results) 0 mod 2 ^ 64 = 1005 mod 2 ^ 64)%Z
    /\ (Forall (fun m => (0 <= QT_VOTOS (votes m))%Z)
               (dropna (merge_left Sample.two_parties
                          (filter (fun r => (year r =? 2018)%Z)
                                  (load_party_ideologies Sample.base_pt)))) ->
        (1005 < 2 ^ 63)%Z ->
        fold_left Z.add (map total_votos results) 0%Z = 1005%Z).
Proof.
  destruct (calculate_municipality_polarization_returns Sample.pow
              Sample.two_parties (load_party_ideologies Sample.base_pt) 2018)
    as [results H].
  exists results. split; [exact H |].
  exact (calculate_conserves_rows_and_votes _ _ _ _ _ H).
Defined.

(** Two tallies of 2^62 votes: the int64 total of the municipality wraps
    around to -2^63. *)
Example total_votos_wraps (pow : float -> float -> float) :
  exists r,
    calculate_municipality_polarization pow
      [ Sample.presidente 1 "PT" (2 ^ 62); Sample.presidente 1 "PT" (2 ^ 62) ]
      Sample.base_pt 2018
    = Returns [r]
    /\ total_votos r = (- 2 ^ 63)%Z.
Proof. eexists. split; reflexivity. Qed.

(** ** The index of a municipality *)

(** X18. A municipality whose remaining tallies all have zero votes gets
    the total 0 and the index 0.0: its shares are all 0/0, that is NaN, the
    mask drops them, and nothing is raised. *)
Theorem calculate_zero_votes (pow : float -> float -> float)
  (votes_df : list VoteRecord) (ideology_df : list IdeologyRow) (y : Z)
  (results : list PolarizationResult) (r : PolarizationResult) :
  calculate_municipality_polarization pow votes_df ideology_df y = Returns results ->
  In r results ->
  (forall m,
     In m (dropna (merge_left votes_df
                     (filter (fun r => (year r =? y)%Z) ideology_df))) ->
     municipio m = cod_municipio r -> QT_VOTOS (votes m) = 0%Z) ->
  total_votos r = 0%Z /\ polarizacao_er r = 0%float.
Proof.
  intros H Hr Hzero.
  apply calculate_municipality_polarization_inv in H.
  destruct (Forall2_in_r _ _ _ _ H Hr)
    as ([mun group] & Hkg & Hcod & _ & _ & Htot & Her).
  apply in_groupby in Hkg as [Hgroup _]. cbn [fst snd] in *. subst mun.
  assert (Htotal : municipality_totals
                     (dropna (merge_left votes_df
                                (filter (fun r => (year r =? y)%Z) ideology_df)))
                     (cod_municipio r) = 0%Z).
  { unfold municipality_totals, group_sum.
    assert (E : map (fun m => QT_VOTOS (votes m))
                    (filter (fun r0 => (municipio r0 =? cod_municipio r)%Z)
                       (dropna (merge_left votes_df
                                  (filter (fun r => (year r =? y)%Z) ideology_df))))
                = map (fun _ => 0%Z)
                    (filter (fun r0 => (municipio r0 =? cod_municipio r)%Z)
                       (dropna (merge_left votes_df
                                  (filter (fun r => (year r =? y)%Z) ideology_df))))).
    { apply map_ext_in. intros m Hm. apply filter_In in Hm as [Hm Hk].
      apply Z.eqb_eq in Hk. now apply Hzero. }
    rewrite E. clear. induction (filter _ _) as [| m l IH]; [reflexivity |].
    exact IH. }
  split; [now rewrite Htot |].
  rewrite esteban_ray_index_all_masked in Her.
  - now injection Her.
  - now rewrite !length_map.
  - apply Forall_map, Forall_forall. intros s Hs.
    rewrite Hgroup in Hs. fold (group_of (cod_municipio r)
                                  (merged_shares votes_df ideology_df y)) in Hs.
    rewrite group_of_merged_shares in Hs.
    apply in_map_iff in Hs as (m & <- & Hm). cbn [vote_share].
    apply filter_In in Hm as [Hm Hk]. apply Z.eqb_eq in Hk.
    rewrite (Hzero m Hm Hk).
    fold (group_sum municipio (fun m => QT_VOTOS (votes m))
            (dropna (merge_left votes_df
                       (filter (fun r => (year r =? y)%Z) ideology_df)))
            (cod_municipio r)).
    fold (municipality_totals
            (dropna (merge_left votes_df
                       (filter (fun r => (year r =? y)%Z) ideology_df)))
            (cod_municipio r)).
    rewrite Htotal. reflexivity.
Qed.

Lemma calculate_zero_votes_witness :
  total_votos {| cod_municipio := 1; ano := 2018; polarizacao_er := 0;
                 num_partidos := 1; total_votos := 0 |} = 0%Z
  /\ polarizacao_er {| cod_municipio := 1; ano := 2018; polarizacao_er := 0;
                       num_partidos := 1; total_votos := 0 |} = 0%float.
Proof.
  apply (calculate_zero_votes Sample.pow Sample.no_votes Sample.base_pt 2018
           [ {| cod_municipio := 1; ano := 2018; polarizacao_er := 0;
                num_partidos := 1; total_votos := 0 |} ]).
  - reflexivity.
  - now left.
  - intros m [<- | []] _. reflexivity.
Defined.

(** Four tallies of 2^62 votes: the int64 total wraps around to 0 though
    votes were cast, the shares are +inf, re-normalized to NaN, and the
    index is NaN with every power function that has pow(NaN, y) = NaN. *)
Example wrapped_total_index (pow : float -> float -> float) :
  c99_pow pow ->
  exists r,
    calculate_municipality_polarization pow
      [ Sample.presidente 1 "PT" (2 ^ 62); Sample.presidente 1 "PT" (2 ^ 62);
        Sample.presidente 1 "PSL" (2 ^ 62); Sample.presidente 1 "PSL" (2 ^ 62) ]
      (load_party_ideologies Sample.base_pt) 2018
    = Returns [r]
    /\ total_votos r = 0%Z
    /\ PrimFloat.is_nan (polarizacao_er r) = true.
Proof.
  intros Hpow. eexists. split; [reflexivity |]. split; [reflexivity |].
  vm_compute. rewrite !(pow_nan pow Hpow) by reflexivity. reflexivity.
Qed.

(** X26. A municipality with a single remaining record gets the index 0.0
    exactly, whatever its votes and its ideology value. *)
Theorem calculate_single_record (pow : float -> float -> float)
  (votes_df : list VoteRecord) (ideology_df : list IdeologyRow) (y : Z)
  (results : list PolarizationResult) (r : PolarizationResult) :
  calculate_municipality_polarization pow votes_df ideology_df y = Returns results ->
  In r results ->
  num_partidos r = 1%nat ->
  polarizacao_er r = 0%float.
Proof.
  intros H Hr Hone.
  apply calculate_municipality_polarization_inv in H.
  destruct (Forall2_in_r _ _ _ _ H Hr)
    as ([mun group] & _ & _ & _ & Hnum & _ & Her).
  cbn [fst snd] in *. rewrite Hone in Hnum.
  destruct group as [| s [| s' group]]; try discriminate.
  cbn [map] in Her. rewrite esteban_ray_index_one_entry in Her.
  now injection Her.
Qed.

Lemma calculate_single_record_witness :
  polarizacao_er {| cod_municipio := 1; ano := 2018; polarizacao_er := 0;
                    num_partidos := 1; total_votos := 5 |} = 0%float.
Proof.
  apply (calculate_single_record Sample.pow Sample.only_psl Sample.base_with_psl
           2018
           [ {| cod_municipio := 1; ano := 2018; polarizacao_er := 0;
                num_partidos := 1; total_votos := 5 |} ]).
  - reflexivity.
  - now left.
  - reflexivity.
Defined.

(** ** Sorting *)

Section Sorting.

Lemma key_leb_le (a b : PolarizationResult) :
  key_leb (sort_key a) (sort_key b) = true <-> Spec.key_le a b.
Proof.
  unfold key_leb, sort_key, Spec.key_le. cbn [fst snd].
  rewrite orb_true_iff, andb_true_iff, Z.ltb_lt, Z.eqb_eq, Z.leb_le. tauto.
Qed.

Lemma key_leb_total (a b : PolarizationResult) :
  key_leb (sort_key a) (sort_key b) = false -> Spec.key_le b a.
Proof.
  unfold key_leb, sort_key, Spec.key_le. cbn [fst snd].
  rewrite orb_false_iff, andb_false_iff, Z.ltb_ge, Z.eqb_neq, Z.leb_gt. lia.
Qed.

Lemma key_le_trans (a b c : PolarizationResult) :
  Spec.key_le a b -> Spec.key_le b c -> Spec.key_le a c.
Proof. unfold Spec.key_le. lia. Qed.

Lemma insert_sorted_hd (r a : PolarizationResult) (df : list PolarizationResult) :
  Spec.key_le a r -> HdRel Spec.key_le a df ->
  HdRel Spec.key_le a (insert_sorted r df).
Proof.
  intros Har Hhd. destruct df as [| h t]; simpl.
  - now constructor.
  - destruct (key_leb (sort_key r) (sort_key h)); constructor; auto.
    now inversion Hhd.
Qed.

Lemma insert_sorted_sorted (r : PolarizationResult) (df : list PolarizationResult) :
  Sorted Spec.key_le df -> Sorted Spec.key_le (insert_sorted r df).
Proof.
  induction 1 as [| h t Ht IH Hhd]; simpl.
  - repeat constructor.
  - destruct (key_leb (sort_key r) (sort_key h)) eqn:E.
    + constructor; [now constructor |].
      constructor. now apply key_leb_le.
    + constructor; [exact IH |].
      apply insert_sorted_hd; [| exact Hhd]. now apply key_leb_total.
Qed.

Lemma insert_sorted_permutation (r : PolarizationResult)
  (df : list PolarizationResult) :
  Permutation (r :: df) (insert_sorted r df).
Proof.
  induction df as [| h t IH]; simpl; [reflexivity |].
  destruct (key_leb (sort_key r) (sort_key h)); [reflexivity |].
  rewrite perm_swap. now constructor.
Qed.

Lemma insertion_sorted (df : list PolarizationResult) :
  Sorted Spec.key_le (fold_right insert_sorted [] df).
Proof.
  induction df as [| a l IH]; simpl; [constructor |].
  now apply insert_sorted_sorted.
Qed.

Lemma insertion_permutation (df : list PolarizationResult) :
  Permutation df (fold_right insert_sorted [] df).
Proof.
  induction df as [| a l IH]; simpl; [constructor |].
  rewrite <- insert_sorted_permutation. now constructor.
Qed.

Lemma sort_values_sorted (df out : list PolarizationResult) :
  sort_values df = Returns out ->
  StronglySorted Spec.key_le out /\ Permutation df out.
Proof.
  intros H. destruct df as [| r df]; [discriminate |].
  injection H as <-. split.
  - apply Sorted_StronglySorted; [exact key_le_trans |].
    apply (insertion_sorted (r :: df)).
  - apply (insertion_permutation (r :: df)).
Qed.

End Sorting.

(** ** The whole run *)

Section Main.

Variable pow : float -> float -> float.
Variable base : list IdeologyRow.
Variable files : Z -> option TseFile.

Let per_year := year_result pow (load_party_ideologies base) files.

Lemma main_inv (out : list PolarizationResult) :
  main pow base files = Returns out ->
  exists all_results,
    for_each per_year ELECTION_YEARS = Returns all_results
    /\ sort_values (concat all_results) = Returns out.
Proof.
  unfold main. cbv zeta. fold per_year.
  destruct (for_each per_year ELECTION_YEARS) as [all_results |];
    simpl; [| discriminate].
  intros H. exists all_results. split; [reflexivity |].
  destruct all_results; simpl in H; [discriminate | exact H].
Qed.

(** The run returns when every file loads and one year at least has a
    tally of a classified party. *)
Lemma main_returns (y0 : Z) (df0 : list VoteRecord) :
  (forall y, In y ELECTION_YEARS -> exists df, load_tse_data files y = Returns df) ->
  In y0 ELECTION_YEARS ->
  load_tse_data files y0 = Returns df0 ->
  merged_shares df0 (load_party_ideologies base) y0 <> [] ->
  exists out, main pow base files = Returns out.
Proof.
  intros Hload Hy0 Hdf0 Hne.
  destruct (for_each_returns per_year ELECTION_YEARS) as [all_results Hall].
  { intros y Hy. destruct (Hload y Hy) as [df Hdf].
    unfold per_year, year_result.
    rewrite Hdf. simpl. apply calculate_municipality_polarization_returns. }
  unfold main. cbv zeta. fold per_year. rewrite Hall. simpl.
  pose proof (for_each_inv _ _ _ Hall) as H2.
  destruct (Forall2_in_l _ _ _ _ H2 Hy0) as (res0 & Hin & Hres0).
  unfold per_year, year_result in Hres0. rewrite Hdf0 in Hres0. simpl in Hres0.
  apply calculate_municipality_polarization_inv in Hres0.
  assert (Hres0_ne : res0 <> []).
  { intros ->. inversion Hres0 as [Hg |].
    symmetry in Hg. revert Hg. now apply groupby_nonempty. }
  assert (Hconcat : concat all_results <> []).
  { intros Hnil. destruct res0 as [| r res0]; [congruence |].
    assert (Hr : In r (concat all_results))
      by (apply in_concat; exists (r :: res0); split; [exact Hin | now left]).
    rewrite Hnil in Hr. contradiction. }
  destruct all_results as [| f fs]; [contradiction |]. simpl pd_concat. simpl bind.
  change (f ++ concat fs) with (concat (f :: fs)).
  destruct (concat (f :: fs)) as [| r rest]; [congruence |].
  simpl. eauto.
Qed.

End Main.

(** C8. The collection [main] writes is sorted: municipality codes are
    non-decreasing and, within a municipality code, years are
    non-decreasing. *)
Theorem main_sorted (pow : float -> float -> float)
  (base : list IdeologyRow) (files : Z -> option TseFile)
  (out : list PolarizationResult) :
  main pow base files = Returns out ->
  StronglySorted Spec.key_le out.
Proof.
  intros H. apply main_inv in H as (all_results & _ & Hsort).
  now apply sort_values_sorted in Hsort.
Qed.

(** The same three tallies in every year's file; PT and PSL are classified
    in 2018 only. *)
Lemma main_sorted_witness :
  exists out,
    main Sample.pow Sample.base_pt
         (fun _ => Some (Sample.one_chunk_file Sample.two_parties))
    = Returns out
    /\ StronglySorted Spec.key_le out.
Proof.
  destruct (main_returns Sample.pow Sample.base_pt
              (fun _ => Some (Sample.one_chunk_file Sample.two_parties))
              2018%Z Sample.two_parties) as [out Hout].
  - intros y _. exists Sample.two_parties. reflexivity.
  - right. right. left. reflexivity.
  - reflexivity.
  - assert (E : length (merged_shares Sample.two_parties
                          (load_party_ideologies Sample.base_pt) 2018) = 3%nat)
      by reflexivity.
    intros Hnil. rewrite Hnil in E. discriminate.
  - exists out. split; [exact Hout |].
    exact (main_sorted _ _ _ _ Hout).
Defined.

(** * Further properties of [main] *)

(** ** The rows of the output *)

Section Output.

Lemma year_result_inv (pow : float -> float -> float)
  (ideology_df : list IdeologyRow) (files : Z -> option TseFile) (y : Z)
  (res : list PolarizationResult) :
  year_result pow ideology_df files y = Returns res ->
  exists df,
    load_tse_data files y = Returns df
    /\ calculate_municipality_polarization pow df ideology_df y = Returns res.
Proof.
  unfold year_result.
  destruct (load_tse_data files y) as [df |]; cbn [bind]; [| discriminate].
  intros H. now exists df.
Qed.

Lemma results_ano (pow : float -> float -> float)
  (votes_df : list VoteRecord) (ideology_df : list IdeologyRow) (y : Z)
  (results : list PolarizationResult) :
  calculate_municipality_polarization pow votes_df ideology_df y = Returns results ->
  Forall (fun r => ano r = y) results.
Proof.
  intros H. apply calculate_municipality_polarization_inv in H.
  apply Forall_forall. intros r Hr.
  destruct (Forall2_in_r _ _ _ _ H Hr) as (kg & _ & _ & Hano & _). exact Hano.
Qed.

Lemma results_keys_NoDup (pow : float -> float -> float)
  (votes_df : list VoteRecord) (ideology_df : list IdeologyRow)
  (y : Z) (results : list PolarizationResult) :
  calculate_municipality_polarization pow votes_df ideology_df y = Returns results ->
  NoDup (map sort_key results).
Proof.
  intros H. apply (NoDup_map_inv fst). rewrite map_map. cbn [sort_key fst].
  change (fun x => cod_municipio x) with cod_municipio.
  rewrite (results_cod_municipio _ _ _ _ _ H). apply group_keys_NoDup.
Qed.

(** Frames of distinct years, each without a repeated key, have no key in
    common. *)
Lemma concat_keys_NoDup (P : Z -> list PolarizationResult -> Prop)
  (years : list Z) (all_results : list (list PolarizationResult)) :
  (forall y res, P y res ->
                 NoDup (map sort_key res) /\ Forall (fun r => ano r = y) res) ->
  NoDup years ->
  Forall2 P years all_results ->
  NoDup (map sort_key (concat all_results))
  /\ Forall (fun r => In (ano r) years) (concat all_results).
Proof.
  intros HP Hnd H. induction H as [| y res ys rest Hy _ IH]; simpl.
  - split; constructor.
  - apply NoDup_cons_iff in Hnd as [Hnotin Hnd].
    destruct (IH Hnd) as [IHnd IHyears]. destruct (HP y res Hy) as [Hres Hano].
    rewrite Forall_forall in Hano, IHyears. split.
    + rewrite map_app. apply NoDup_app; [exact Hres | exact IHnd |].
      intros key Hin1 Hin2.
      apply in_map_iff in Hin1 as (r1 & <- & Hr1).
      apply in_map_iff in Hin2 as (r2 & E & Hr2).
      apply Hnotin. rewrite <- (Hano r1 Hr1).
      assert (Ea : ano r2 = ano r1) by (unfold sort_key in E; congruence).
      rewrite <- Ea. now apply IHyears.
    + apply Forall_forall. intros r Hr. apply in_app_iff in Hr as [Hr | Hr].
      * left. symmetry. now apply Hano.
      * right. now apply IHyears.
Qed.

Lemma ELECTION_YEARS_NoDup : NoDup ELECTION_YEARS.
Proof.
  unfold ELECTION_YEARS. repeat constructor; simpl; intuition discriminate.
Qed.

End Output.

(** X22. The output has at most one row per (municipality, year), and the
    year of every row is one of the four election years. *)
Theorem main_one_row_per_municipality_year (pow : float -> float -> float)
  (base : list IdeologyRow) (files : Z -> option TseFile)
  (out : list PolarizationResult) :
  main pow base files = Returns out ->
  NoDup (map sort_key out)
  /\ Forall (fun r => In (ano r) ELECTION_YEARS) out.
Proof.
  intros H. apply main_inv in H as (all_results & Hall & Hsort).
  apply for_each_inv in Hall.
  apply sort_values_sorted in Hsort as [_ Hperm].
  destruct (concat_keys_NoDup _ _ _
              (fun y res Hy =>
                 match year_result_inv _ _ _ _ _ Hy with
                 | ex_intro _ df (conj _ Hc) =>
                     conj (results_keys_NoDup _ _ _ _ _ Hc)
                          (results_ano _ _ _ _ _ Hc)
                 end)
              ELECTION_YEARS_NoDup Hall) as [Hnd Hyears].
  split.
  - apply (Permutation_NoDup (Permutation_map sort_key Hperm) Hnd).
  - apply Forall_forall. intros r Hr. rewrite Forall_forall in Hyears.
    apply Hyears. apply (Permutation_in _ (Permutation_sym Hperm) Hr).
Qed.

Lemma main_one_row_per_municipality_year_witness :
  exists out,
    main Sample.pow Sample.base_pt
         (fun _ => Some (Sample.one_chunk_file Sample.two_parties))
    = Returns out
    /\ NoDup (map sort_key out)
    /\ Forall (fun r => In (ano r) ELECTION_YEARS) out.
Proof.
  destruct (main_returns Sample.pow Sample.base_pt
              (fun _ => Some (Sample.one_chunk_file Sample.two_parties))
              2018%Z Sample.two_parties) as [out Hout].
  - intros y _. exists Sample.two_parties. reflexivity.
  - right. right. left. reflexivity.
  - reflexivity.
  - assert (E : length (merged_shares Sample.two_parties
                          (load_party_ideologies Sample.base_pt) 2018) = 3%nat)
      by reflexivity.
    intros Hnil. rewrite Hnil in E. discriminate.
  - exists out. split; [exact Hout |].
    exact (main_one_row_per_municipality_year _ _ _ _ Hout).
Defined.

(** X23. Sorting loses and adds nothing: the output holds exactly the rows
    of the frames of the four years, each as often as there. *)
Theorem main_rows (pow : float -> float -> float)
  (base : list IdeologyRow) (files : Z -> option TseFile)
  (out : list PolarizationResult) :
  main pow base files = Returns out ->
  exists all_results,
    Forall2 (fun y res =>
               year_result pow (load_party_ideologies base) files y = Returns res)
            ELECTION_YEARS all_results
    /\ Permutation (concat all_results) out.
Proof.
  intros H. apply main_inv in H as (all_results & Hall & Hsort).
  exists all_results. split.
  - now apply for_each_inv.
  - now apply sort_values_sorted in Hsort.
Qed.

Lemma main_rows_witness :
  exists out all_results,
    main Sample.pow Sample.base_pt
         (fun _ => Some (Sample.one_chunk_file Sample.two_parties))
    = Returns out
    /\ Forall2 (fun y res =>
                  year_result Sample.pow (load_party_ideologies Sample.base_pt)
                              (fun _ => Some (Sample.one_chunk_file Sample.two_parties))
                              y
                  = Returns res)
               ELECTION_YEARS all_results
    /\ Permutation (concat all_results) out.
Proof.
  destruct (main_returns Sample.pow Sample.base_pt
              (fun _ => Some (Sample.one_chunk_file Sample.two_parties))
              2018%Z Sample.two_parties) as [out Hout].
  - intros y _. exists Sample.two_parties. reflexivity.
  - right. right. left. reflexivity.
  - reflexivity.
  - assert (E : length (merged_shares Sample.two_parties
                          (load_party_ideologies Sample.base_pt) 2018) = 3%nat)
      by reflexivity.
    intros Hnil. rewrite Hnil in E. discriminate.
  - destruct (main_rows _ _ _ _ Hout) as (all_results & H1 & H2).
    exists out, all_results. auto.
Defined.

(** ** A missing file *)

Section MissingFile.

Lemma for_each_raises {A B : Type} (f : A -> pyresult B) (before after : list A)
  (x : A) (e : pyexn) :
  (forall x', In x' before -> exists y, f x' = Returns y) ->
  f x = Raises e ->
  for_each f (before ++ x :: after) = Raises e.
Proof.
  intros Hbefore Hx. induction before as [| x' before IH]; cbn [app for_each].
  - now rewrite Hx.
  - destruct (Hbefore x' (or_introl eq_refl)) as [y ->]. cbn [bind].
    rewrite IH; [reflexivity |]. intros x'' Hin. apply Hbefore. now right.
Qed.

Variable pow : float -> float -> float.
Variable ideology_df : list IdeologyRow.
Variable files : Z -> option TseFile.

Lemma year_result_returns (y : Z) (file : TseFile) :
  files y = Some file -> read_latin1 file <> [] ->
  exists res, year_result pow ideology_df files y = Returns res.
Proof.
  intros Hfile Hchunks. unfold year_result.
  rewrite load_tse_data_no_fallback, load_tse_data_try_outcome, Hfile.
  destruct (read_latin1 file); [congruence |]. cbn [bind].
  apply calculate_municipality_polarization_returns.
Qed.

Lemma year_result_missing_file (y : Z) :
  files y = None -> year_result pow ideology_df files y = Raises FileNotFoundError.
Proof.
  intros Hfile. unfold year_result.
  now rewrite load_tse_data_no_fallback, load_tse_data_try_outcome, Hfile.
Qed.

End MissingFile.

(** X27. A missing vote file stops the whole run: when the files of the
    election years before [y] are there and deliver a chunk, and the file
    of [y] is missing, [main] raises FileNotFoundError and writes nothing,
    whatever the files of the later years hold. *)
Theorem main_missing_file (pow : float -> float -> float)
  (base : list IdeologyRow) (files : Z -> option TseFile)
  (before after : list Z) (y : Z) :
  ELECTION_YEARS = before ++ y :: after ->
  (forall y', In y' before ->
              exists file, files y' = Some file /\ read_latin1 file <> []) ->
  files y = None ->
  main pow base files = Raises FileNotFoundError.
Proof.
  intros Hyears Hbefore Hmissing. unfold main. rewrite Hyears.
  rewrite (for_each_raises _ before after y FileNotFoundError); [reflexivity | |].
  - intros y' Hy'. destruct (Hbefore y' Hy') as (file & Hfile & Hchunks).
    now apply (year_result_returns pow _ files y' file).
  - now apply year_result_missing_file.
Qed.

Lemma main_missing_file_witness :
  main Sample.pow Sample.base_pt
       (fun y => if (y =? 2010)%Z
                 then Some (Sample.one_chunk_file Sample.two_parties)
                 else None)
  = Raises FileNotFoundError.
Proof.
  apply (main_missing_file Sample.pow Sample.base_pt
           (fun y => if (y =? 2010)%Z
                     then Some (Sample.one_chunk_file Sample.two_parties)
                     else None)
           [2010%Z] [2018%Z; 2022%Z] 2014%Z).
  - reflexivity.
  - intros y' [<- | []]. exists (Sample.one_chunk_file Sample.two_parties).
    split; [reflexivity | discriminate].
  - reflexivity.
Defined.

(** ** Columns the calculation does not read *)

Section UnreadColumns.

Variable pow : float -> float -> float.
Variable g : VoteRecord -> VoteRecord.
Hypothesis g_municipio : forall v, CD_MUNICIPIO (g v) = CD_MUNICIPIO v.
Hypothesis g_partido : forall v, SG_PARTIDO (g v) = SG_PARTIDO v.
Hypothesis g_votos : forall v, QT_VOTOS (g v) = QT_VOTOS v.

Let on_merged (m : MergedRow) : MergedRow :=
  {| votes := g (votes m); merged_ideology := merged_ideology m |}.

Let on_share (s : ShareRow) : ShareRow :=
  {| merged := on_merged (merged s); vote_share := vote_share s |}.

Lemma merge_left_map (votes_df : list VoteRecord) (ideology_year : list IdeologyRow) :
  merge_left (map g votes_df) ideology_year
  = map on_merged (merge_left votes_df ideology_year).
Proof.
  unfold merge_left. rewrite !flat_map_concat_map, concat_map, !map_map.
  f_equal. apply map_ext. intros v. rewrite g_partido.
  destruct (filter _ ideology_year) as [| r0 rs]; [reflexivity |].
  now rewrite map_map.
Qed.

Lemma dropna_map (df : list MergedRow) :
  dropna (map on_merged df) = map on_merged (dropna df).
Proof.
  unfold dropna. now rewrite filter_map_swap.
Qed.

Lemma municipality_totals_map (df : list MergedRow) (k : Z) :
  municipality_totals (map on_merged df) k = municipality_totals df k.
Proof.
  unfold municipality_totals, group_sum. rewrite filter_map_swap, map_map.
  f_equal. unfold municipio, on_merged. cbn [votes].
  rewrite (filter_ext (fun a => (CD_MUNICIPIO (g (votes a)) =? k)%Z)
                      (fun a => (CD_MUNICIPIO (votes a) =? k)%Z))
    by (intros a; now rewrite g_municipio).
  apply map_ext. intros a. apply g_votos.
Qed.

Lemma with_vote_share_map (df : list MergedRow) :
  with_vote_share (map on_merged df) = map on_share (with_vote_share df).
Proof.
  unfold with_vote_share. rewrite !map_map. apply map_ext. intros m.
  unfold on_share. cbn [merged vote_share]. f_equal.
  rewrite municipality_totals_map. unfold municipio, on_merged. cbn [votes].
  now rewrite g_votos, g_municipio.
Qed.

Lemma groupby_map (df : list ShareRow) :
  groupby (fun s => municipio (merged s)) (map on_share df)
  = map (fun kg => (fst kg, map on_share (snd kg)))
        (groupby (fun s => municipio (merged s)) df).
Proof.
  assert (Hkey : forall s, municipio (merged (on_share s)) = municipio (merged s))
    by (intros s; unfold municipio, on_share, on_merged; cbn [merged votes];
        apply g_municipio).
  unfold groupby. rewrite !map_map.
  rewrite (map_ext _ _ Hkey df).
  apply map_ext. intros k. cbn [fst snd]. f_equal.
  rewrite filter_map_swap. f_equal. apply filter_ext. intros s. now rewrite Hkey.
Qed.

Lemma for_each_map {A B C : Type} (f : B -> pyresult C) (h : A -> B) (xs : list A) :
  for_each f (map h xs) = for_each (fun x => f (h x)) xs.
Proof.
  induction xs as [| x xs IH]; [reflexivity |]. cbn [map for_each]. now rewrite IH.
Qed.

Lemma for_each_ext {A B : Type} (f f' : A -> pyresult B) (xs : list A) :
  (forall x, f x = f' x) -> for_each f xs = for_each f' xs.
Proof.
  intros H. induction xs as [| x xs IH]; [reflexivity |].
  cbn [for_each]. now rewrite H, IH.
Qed.

(** X24. The calculation reads the municipality, the party and the vote
    count of a tally and nothing else: tallies that differ in the other
    columns (office, round) give the same frame. *)
Theorem calculate_reads_three_columns
  (votes_df : list VoteRecord) (ideology_df : list IdeologyRow) (y : Z) :
  calculate_municipality_polarization pow (map g votes_df) ideology_df y
  = calculate_municipality_polarization pow votes_df ideology_df y.
Proof.
  unfold calculate_municipality_polarization.
  rewrite merge_left_map, dropna_map, with_vote_share_map, groupby_map, for_each_map.
  apply for_each_ext. intros [mun group]. cbn [fst snd].
  rewrite !map_map, length_map, municipality_totals_map. reflexivity.
Qed.

End UnreadColumns.

Lemma calculate_reads_three_columns_witness :
  calculate_municipality_polarization Sample.pow
    (map (fun v => Sample.governador (CD_MUNICIPIO v) (SG_PARTIDO v) (QT_VOTOS v))
         Sample.two_parties)
    (load_party_ideologies Sample.base_pt) 2018
  = calculate_municipality_polarization Sample.pow
      Sample.two_parties (load_party_ideologies Sample.base_pt) 2018.
Proof.
  apply (calculate_reads_three_columns Sample.pow
           (fun v => Sample.governador (CD_MUNICIPIO v) (SG_PARTIDO v) (QT_VOTOS v)));
    reflexivity.
Defined.
